(** * Data-processing and risk-scoring pipeline of the dashboard (app.py)

    A shallow embedding of the pure transforms of [src/app.py]:
    [clean_percent_col], [process_region_data], [process_country_data],
    [process_undernourishment_data], [process_food_data],
    [process_life_expectancy], the per-commodity price change of the food
    tab, the risk-score join and the purchasing-power table of the
    inflation-poverty tab, and the price trends of the country deep dive.

    Tables are lists of rows (records); a pandas column operation becomes a
    [map] over the rows, which is what the element-wise operation does. *)

From Stdlib Require Import ZArith QArith Qabs Qround Bool List Ascii String.
From Stdlib Require Import DecimalString.
From Stdlib Require Import Lia Lqa Permutation Sorted.
Import ListNotations.

Set Implicit Arguments.
Local Open Scope Q_scope.

(** ** Numeric cells

    A pandas float64 cell in exact arithmetic: a rational, one of the two
    infinities, or NaN, which is also pandas' missing value.  The operations
    follow IEEE 754 on the extended line (what numpy computes), without
    rounding and without a signed zero. *)

Inductive float : Type :=
| Fin (q : Q)
| PInf
| NInf
| NaN.

Declare Scope float_scope.
Delimit Scope float_scope with F.
Bind Scope float_scope with float.

Definition of_Z (z : Z) : float := Fin (inject_Z z).

(** [Series.isna] / [Series.notna]. *)
Definition isna (x : float) : bool :=
  match x with NaN => true | _ => false end.

Definition notna (x : float) : bool := negb (isna x).

(** Sign of a rational, as a [comparison] with 0. *)
Definition Qsign (q : Q) : comparison := (0 ?= Qnum q)%Z.

Definition inf_of_sign (c : comparison) : float :=
  match c with Lt => PInf | Gt => NInf | Eq => NaN end.

Definition fsign (x : float) : comparison :=
  match x with
  | Fin q => Qsign q
  | PInf => Lt
  | NInf => Gt
  | NaN => Eq
  end.

Definition sign_mul (a b : comparison) : comparison :=
  match a, b with
  | Eq, _ | _, Eq => Eq
  | Lt, Lt | Gt, Gt => Lt
  | _, _ => Gt
  end.

Definition fneg (x : float) : float :=
  match x with
  | Fin q => Fin (- q)
  | PInf => NInf
  | NInf => PInf
  | NaN => NaN
  end.

Definition fadd (x y : float) : float :=
  match x, y with
  | NaN, _ | _, NaN => NaN
  | Fin p, Fin q => Fin (p + q)
  | PInf, NInf | NInf, PInf => NaN
  | PInf, _ | _, PInf => PInf
  | NInf, _ | _, NInf => NInf
  end.

Definition fsub (x y : float) : float := fadd x (fneg y).

Definition fmul (x y : float) : float :=
  match x, y with
  | NaN, _ | _, NaN => NaN
  | Fin p, Fin q => Fin (p * q)
  | _, _ => inf_of_sign (sign_mul (fsign x) (fsign y))
  end.

(** True division as numpy does it: a zero divisor gives an infinity of the
    dividend's sign, and NaN for 0/0; nothing is raised. *)
Definition fdiv (x y : float) : float :=
  match x, y with
  | NaN, _ | _, NaN => NaN
  | Fin p, Fin q =>
      match Qsign q with
      | Eq => inf_of_sign (Qsign p)
      | _ => Fin (p / q)
      end
  | Fin _, _ => Fin 0
  | _, Fin q =>
      match Qsign q with
      | Gt => fneg x
      | _ => x
      end
  | _, _ => NaN
  end.

Definition fabs (x : float) : float :=
  match x with
  | Fin q => Fin (Qabs q)
  | PInf | NInf => PInf
  | NaN => NaN
  end.

(** Comparisons: any comparison with NaN is [False]. *)
Definition fltb (x y : float) : bool :=
  match x, y with
  | NaN, _ | _, NaN => false
  | Fin p, Fin q => match p ?= q with Lt => true | _ => false end
  | NInf, NInf => false
  | NInf, _ => true
  | _, PInf => match x with PInf => false | _ => true end
  | _, _ => false
  end.

Definition fgtb (x y : float) : bool := fltb y x.

Infix "+" := fadd : float_scope.
Infix "-" := fsub : float_scope.
Infix "*" := fmul : float_scope.
Infix "/" := fdiv : float_scope.
Infix "<?" := fltb : float_scope.
Infix ">?" := fgtb (at level 70) : float_scope.

(** Equality of cells as numbers: rationals up to [Qeq]. *)
Definition feq (x y : float) : Prop :=
  match x, y with
  | Fin p, Fin q => p == q
  | PInf, PInf | NInf, NInf | NaN, NaN => True
  | _, _ => False
  end.

Infix "=f=" := feq (at level 70, no associativity).

(** ** Text cells

    Strings are byte strings; the character classes below are the ASCII part
    of Python's (bytes above 127 are left as they are). *)

Local Open Scope string_scope.

(** [str.replace(c, '')] for a one-character pattern: every occurrence of
    [c] is removed. *)
Fixpoint str_remove (c : ascii) (s : string) : string :=
  match s with
  | EmptyString => EmptyString
  | String a s' =>
      if Ascii.eqb a c then str_remove c s' else String a (str_remove c s')
  end.

Definition is_space (a : ascii) : bool :=
  let n := N_of_ascii a in
  ((9 <=? n) && (n <=? 13) || (28 <=? n) && (n <=? 32))%N.

Fixpoint lstrip (s : string) : string :=
  match s with
  | String a s' => if is_space a then lstrip s' else s
  | EmptyString => EmptyString
  end.

Fixpoint rstrip (s : string) : string :=
  match s with
  | EmptyString => EmptyString
  | String a s' =>
      match rstrip s' with
      | EmptyString => if is_space a then EmptyString else String a EmptyString
      | t => String a t
      end
  end.

(** [str.strip()] *)
Definition str_strip (s : string) : string := rstrip (lstrip s).

Definition lower_ascii (a : ascii) : ascii :=
  let n := N_of_ascii a in
  if ((65 <=? n) && (n <=? 90))%N then ascii_of_N (n + 32) else a.

(** [str.lower()] *)
Fixpoint str_lower (s : string) : string :=
  match s with
  | EmptyString => EmptyString
  | String a s' => String (lower_ascii a) (str_lower s')
  end.

(** [.str.strip().str.lower()] on a column of names; a missing name stays
    missing. *)
Definition normalize_name (c : option string) : option string :=
  option_map (fun s => str_lower (str_strip s)) c.

(** ** Exceptions *)

Inductive exn : Type :=
| ValueError
| IntCastingNaNError.

Inductive result (A : Type) : Type :=
| Ok (a : A)
| Raise (e : exn).

Arguments Ok {A} a.
Arguments Raise {A} e.

Definition bind {A B} (c : result A) (k : A -> result B) : result B :=
  match c with
  | Ok a => k a
  | Raise e => Raise e
  end.

Notation "x <- c ;; k" := (bind c (fun x => k))
  (at level 61, c at next level, right associativity).

Fixpoint mapM {A B} (f : A -> result B) (l : list A) : result (list B) :=
  match l with
  | [] => Ok []
  | a :: l' => b <- f a ;; bs <- mapM f l' ;; Ok (b :: bs)
  end.

(** ** Scalar cleaner *)

Inductive errors_mode : Type :=
| errors_raise
| errors_coerce.

Module Cleaner.
Section WithParser.

(** The text-to-number conversion of the pandas library: [Some x] when the
    text is read as the number [x] (an infinity or NaN for the texts that
    the library reads as such), [None] when it is not a number. *)
Variable str_to_float : string -> option float.

(** What [errors] makes of a text that is not a number. *)
Definition invalid_parsing (errors : errors_mode) : result float :=
  match errors with
  | errors_raise => Raise ValueError
  | errors_coerce => Ok NaN
  end.

(** [pd.to_numeric(s, errors=...)] on one value; the empty text is not a
    number. *)
Definition to_numeric (errors : errors_mode) (s : string) : result float :=
  match s with
  | EmptyString => invalid_parsing errors
  | _ =>
      match str_to_float s with
      | Some x => Ok x
      | None => invalid_parsing errors
      end
  end.

(** The text that reaches [pd.to_numeric]: the cell without its
    decoration. *)
Definition undecorate (s : string) : string :=
  str_remove "," (str_remove "%" s).

(** [clean_percent_col] on one value of the column. *)
Definition clean_percent (s : string) : result float :=
  to_numeric errors_coerce (undecorate s).

(** [clean_percent_col(s)]: the values of the column, each one cleaned. *)
Definition clean_percent_col (s : list string) : result (list float) :=
  mapM clean_percent s.

End WithParser.
End Cleaner.

(** A reader of plain decimal numerals ([12], [-3.5], [.5], [60.]), blanks
    around them allowed; an instance of the library conversion used to run
    the pipeline on examples. *)

Definition digit_of (a : ascii) : option Z :=
  let n := N_of_ascii a in
  if ((48 <=? n) && (n <=? 57))%N then Some (Z.of_N (n - 48)) else None.

(** Reads a run of digits: the value so far, the number of digits read, and
    the rest of the text. *)
Fixpoint read_digits (s : string) (acc : Z) (n : nat) : Z * nat * string :=
  match s with
  | String a s' =>
      match digit_of a with
      | Some d => read_digits s' (10 * acc + d) (S n)
      | None => (acc, n, s)
      end
  | EmptyString => (acc, n, s)
  end.

Definition read_sign (s : string) : bool * string :=
  match s with
  | String "-" s' => (true, s')
  | String "+" s' => (false, s')
  | _ => (false, s)
  end.

Definition parse_decimal (s : string) : option Q :=
  let '(neg, s1) := read_sign (str_strip s) in
  let '(ip, n1, s2) := read_digits s1 0 0 in
  let '(fp, n2, s3) :=
    match s2 with
    | String "." s2' => read_digits s2' ip 0
    | _ => (ip, 0%nat, s2)
    end in
  match s3, (n1 + n2)%nat with
  | EmptyString, S _ =>
      let q := Qred (fp # Pos.of_nat (Nat.pow 10 n2)) in
      Some (if neg then - q else q)
  | _, _ => None
  end.

(** The same reader with the words for the infinities and for NaN, in any
    case and with a sign: the instance of the library conversion on which
    the examples run. *)
Definition parse_float (s : string) : option float :=
  let '(neg, word) := read_sign (str_lower (str_strip s)) in
  if String.eqb word "inf" || String.eqb word "infinity"
  then Some (if neg then NInf else PInf)
  else if String.eqb word "nan" then Some NaN
  else option_map Fin (parse_decimal s).

(** ** Region enricher *)

Module Region.

(** A row of the raw region sheet; the percentage cells by their text, which
    is what [astype(str)] hands to the cleaner. *)
Record raw : Type := mk_raw {
  raw_Region : string;
  raw_Population : float;
  raw_Urban_Pop_Perc : string;
  raw_Yearly_Change : string;
  raw_World_Share : string
}.

Record row : Type := mk_row {
  Region : string;
  Population : float;
  Urban_Pop_Perc : float;
  Yearly_Change : float;
  World_Share : float;
  Urban_Pop : float;
  Rural_Pop : float
}.

Section WithParser.

Variable str_to_float : string -> option float.

Definition process_region_row (r : raw) : result row :=
  urban_perc <- Cleaner.clean_percent str_to_float (raw_Urban_Pop_Perc r) ;;
  yearly <- Cleaner.clean_percent str_to_float (raw_Yearly_Change r) ;;
  share <- Cleaner.clean_percent str_to_float (raw_World_Share r) ;;
  let urban_pop := (raw_Population r * urban_perc / of_Z 100)%F in
  Ok {| Region := raw_Region r;
        Population := raw_Population r;
        Urban_Pop_Perc := urban_perc;
        Yearly_Change := yearly;
        World_Share := share;
        Urban_Pop := urban_pop;
        Rural_Pop := (raw_Population r - urban_pop)%F |}.

(** [process_region_data(region)] *)
Definition process_region_data (region : list raw) : result (list row) :=
  mapM process_region_row region.

End WithParser.
End Region.

(** ** Country enricher *)

Module Country.

(** A row of the country table.  The last three fields are the derived
    columns; whether the table has the columns [Yearly-Change] and
    [Net_Change_perc] is recorded in [columns] of the table, and the field of
    a column the table does not have is not looked at. *)
Record row : Type := mk_row {
  Country : option string;
  Population : float;
  Yearly_Change : float;
  Migrants_net : float;
  Median_Age : float;
  Fert_Rate : float;
  Density : float;
  Net_Change_perc : float;
  Migrants_per_100k : float;
  Demographic_Status : string
}.

Record df : Type := mk_df {
  columns : list string;
  rows : list row
}.

Definition in_columns (name : string) (country : df) : bool :=
  existsb (String.eqb name) (columns country).

Definition add_column (name : string) (cols : list string) : list string :=
  if existsb (String.eqb name) cols then cols else cols ++ [name].

(** [classify_aging(row)] *)
Definition classify_aging (r : row) : string :=
  if (Fert_Rate r >? Fin 2.1)%F && (Median_Age r <? of_Z 30)%F then "Growing"
  else if (Fert_Rate r <? Fin 1.8)%F && (Median_Age r >? of_Z 40)%F then "Aging"
  else "Stable".

(** [country.get('Yearly-Change', 0) * 100], at one row: the row's cell when
    the table has the column, the scalar 0 otherwise. *)
Definition get_Yearly_Change (country : df) (default : float) (r : row) : float :=
  if in_columns "Yearly-Change" country then Yearly_Change r else default.

Definition net_change_perc (country : df) (r : row) : float :=
  if negb (in_columns "Net_Change_perc" country)
  then (get_Yearly_Change country (of_Z 0) r * of_Z 100)%F
  else Net_Change_perc r.

Definition migrants_per_100k (r : row) : float :=
  ((Migrants_net r / Population r) * of_Z 100000)%F.

Definition process_country_row (country : df) (r : row) : row :=
  {| Country := Country r;
     Population := Population r;
     Yearly_Change := Yearly_Change r;
     Migrants_net := Migrants_net r;
     Median_Age := Median_Age r;
     Fert_Rate := Fert_Rate r;
     Density := Density r;
     Net_Change_perc := net_change_perc country r;
     Migrants_per_100k := migrants_per_100k r;
     Demographic_Status := classify_aging r |}.

(** [process_country_data(country)] *)
Definition process_country_data (country : df) : df :=
  {| columns :=
       add_column "Demographic_Status"
         (add_column "Migrants_per_100k"
            (add_column "Net_Change_perc" (columns country)));
     rows := map (process_country_row country) (rows country) |}.

End Country.

(** ** Series reductions *)

(** [Series.sum()]: missing values are skipped; the empty sum is 0. *)
Definition series_sum (s : list float) : float :=
  fold_left fadd (filter notna s) (of_Z 0).

(** [Series.count()]: the number of values that are not missing. *)
Definition series_count (s : list float) : nat :=
  List.length (filter notna s).

(** [Series.mean()]: the mean of the values that are not missing, NaN when
    there is none. *)
Definition series_mean (s : list float) : float :=
  (series_sum s / of_Z (Z.of_nat (series_count s)))%F.

(** ** Undernourishment enricher *)

Module Und.

Record raw : Type := mk_raw {
  raw_Country : option string;
  raw_Undernourished_People : float;
  raw_Population : float
}.

Record row : Type := mk_row {
  Country : option string;
  Undernourished_People : float;
  Population : float;
  Undernourished_per_1000 : float;
  Undernourished_Million : float;
  Global_Burden_Share : float;
  Population_Share : float;
  Burden_vs_Pop_Diff : float
}.

Definition process_und_row (total_undernourished total_pop : float) (r : raw) : row :=
  let burden := ((raw_Undernourished_People r / total_undernourished) * of_Z 100)%F in
  let share := ((raw_Population r / total_pop) * of_Z 100)%F in
  {| Country := raw_Country r;
     Undernourished_People := raw_Undernourished_People r;
     Population := raw_Population r;
     Undernourished_per_1000 :=
       ((raw_Undernourished_People r / raw_Population r) * of_Z 1000)%F;
     Undernourished_Million := (raw_Undernourished_People r / of_Z 1000000)%F;
     Global_Burden_Share := burden;
     Population_Share := share;
     Burden_vs_Pop_Diff := (burden - share)%F |}.

(** [process_undernourishment_data(und)]: the enriched table and the two
    totals. *)
Definition process_undernourishment_data (und : list raw)
  : list row * float * float :=
  let total_undernourished := series_sum (map raw_Undernourished_People und) in
  let total_pop := series_sum (map raw_Population und) in
  (map (process_und_row total_undernourished total_pop) und,
   total_undernourished, total_pop).

End Und.

(** ** Food price filter *)

(** [astype(int)] on one float cell: truncation toward zero; a missing or
    infinite value cannot be converted. *)
Definition astype_int (x : float) : result Z :=
  match x with
  | Fin q => Ok (Z.quot (Qnum q) (Zpos (Qden q)))
  | _ => Raise IntCastingNaNError
  end.

Module Food.

Record raw : Type := mk_raw {
  raw_country_name : option string;
  raw_comm_purchased : option string;
  raw_market_type : option string;
  raw_year_recorded : float;
  raw_month_recorded : float;
  raw_price_paid : float
}.

(** A row after the filter: year and month are integers. *)
Record row : Type := mk_row {
  country_name : option string;
  comm_purchased : option string;
  market_type : option string;
  year_recorded : Z;
  month_recorded : Z;
  price_paid : float
}.

(** The boolean mask [food['price-paid'].notna() & (food['price-paid'] > 0)]
    at one row. *)
Definition keep (r : raw) : bool :=
  notna (raw_price_paid r) && (raw_price_paid r >? of_Z 0)%F.

Definition coerce_row (r : raw) : result row :=
  y <- astype_int (raw_year_recorded r) ;;
  m <- astype_int (raw_month_recorded r) ;;
  Ok {| country_name := raw_country_name r;
        comm_purchased := raw_comm_purchased r;
        market_type := raw_market_type r;
        year_recorded := y;
        month_recorded := m;
        price_paid := raw_price_paid r |}.

(** [process_food_data(food)] *)
Definition process_food_data (food : list raw) : result (list row) :=
  mapM coerce_row (filter keep food).

End Food.

(** ** Group-by

    [DataFrame.groupby(key)]: rows whose key is missing are dropped, the
    groups come out sorted by key, and inside a group the rows keep their
    order. *)

Section GroupBy.

Variables K V : Type.
Variable K_dec : forall x y : K, {x = y} + {x <> y}.
Variable K_leb : K -> K -> bool.

Fixpoint insert_key (k : K) (l : list K) : list K :=
  match l with
  | [] => [k]
  | h :: t => if K_leb k h then k :: l else h :: insert_key k t
  end.

Definition sort_keys (l : list K) : list K := fold_right insert_key [] l.

Definition present_keys (key : V -> option K) (rows : list V) : list K :=
  flat_map (fun r => match key r with Some k => [k] | None => [] end) rows.

Definition group_keys (key : V -> option K) (rows : list V) : list K :=
  sort_keys (nodup K_dec (present_keys key rows)).

Definition in_group (key : V -> option K) (k : K) (r : V) : bool :=
  match key r with
  | Some k' => if K_dec k k' then true else false
  | None => false
  end.

Definition groupby (key : V -> option K) (rows : list V) : list (K * list V) :=
  map (fun k => (k, filter (in_group key k) rows)) (group_keys key rows).

End GroupBy.

Definition key2_dec (x y : string * Z) : {x = y} + {x <> y}.
Proof. decide equality; [apply Z.eq_dec | apply string_dec]. Defined.

(** Order of the pairs (text, year): by text, then by year. *)
Definition key2_leb (x y : string * Z) : bool :=
  match String.compare (fst x) (fst y) with
  | Lt => true
  | Gt => false
  | Eq => (snd x <=? snd y)%Z
  end.

(** ** Aggregation utilities: price change per commodity (food tab) *)

Module Aggregation.

Record yearly_price : Type := mk_yearly_price {
  comm_purchased : string;
  year_recorded : Z;
  price_paid : float
}.

Definition comm_year (r : Food.row) : option (string * Z) :=
  option_map (fun c => (c, Food.year_recorded r)) (Food.comm_purchased r).

(** [food.groupby(['comm-purchased', 'year-recorded'])['price-paid'].mean()
    .reset_index()] *)
Definition price_by_year (food : list Food.row) : list yearly_price :=
  map (fun g =>
         {| comm_purchased := fst (fst g);
            year_recorded := snd (fst g);
            price_paid := series_mean (map Food.price_paid (snd g)) |})
      (groupby key2_dec key2_leb comm_year food).

(** The aggregation function of [price_change]:
    [lambda x: x.iloc[-1] - x.iloc[0] if len(x) > 1 else 0] *)
Definition first_last_change (x : list float) : float :=
  if (1 <? List.length x)%nat
  then (last x NaN - hd NaN x)%F
  else of_Z 0.

(** [price_by_year.groupby('comm-purchased').agg({'price-paid': ...})
    .reset_index()], with the columns named [comm-purchased] and
    [price_change]. *)
Definition price_change (food : list Food.row) : list (string * float) :=
  map (fun g => (fst g, first_last_change (map price_paid (snd g))))
      (groupby string_dec String.leb
               (fun r => Some (comm_purchased r)) (price_by_year food)).

(** The price-change metric of the country deep dive, computed on a table
    that the caller has checked not to be empty:
    [((x.iloc[-1] / x.iloc[0]) - 1) * 100] *)
Definition deep_dive_price_change (x : list float) : float :=
  (((last x NaN / hd NaN x) - of_Z 1) * of_Z 100)%F.

End Aggregation.

(** ** Cross-table joiner: the risk score (inflation-poverty tab) *)

Module Joiner.

Record food_agg_row : Type := mk_food_agg_row {
  fa_country_name : string;
  fa_year_recorded : Z;
  fa_price_paid : float;
  food_inflation : float
}.

Record food_trend : Type := mk_food_trend {
  ft_country_name : string;
  ft_avg_food_inflation : float
}.

(** A row of [merged_df]: the columns of the country row, the two columns of
    [food_trends], and the score. *)
Record merged : Type := mk_merged {
  country : Country.row;
  country_name : string;
  avg_food_inflation : float;
  poverty_risk_score : float
}.

Definition set_Country (c : option string) (r : Country.row) : Country.row :=
  {| Country.Country := c;
     Country.Population := Country.Population r;
     Country.Yearly_Change := Country.Yearly_Change r;
     Country.Migrants_net := Country.Migrants_net r;
     Country.Median_Age := Country.Median_Age r;
     Country.Fert_Rate := Country.Fert_Rate r;
     Country.Density := Country.Density r;
     Country.Net_Change_perc := Country.Net_Change_perc r;
     Country.Migrants_per_100k := Country.Migrants_per_100k r;
     Country.Demographic_Status := Country.Demographic_Status r |}.

Definition country_clean (country : list Country.row) : list Country.row :=
  map (fun r => set_Country (normalize_name (Country.Country r)) r) country.

(** The key of a food row after [food_clean], paired with the year. *)
Definition name_year (r : Food.row) : option (string * Z) :=
  option_map (fun c => (c, Food.year_recorded r))
             (normalize_name (Food.country_name r)).

(** [x / x.shift(1) - 1] inside each group of rows with the same name, put
    back at the rows' own positions; [prev] holds, per name, the price of the
    latest row seen. (On the output of [process_food_data] no yearly mean is
    missing, so no gap is there to be filled before the division.) *)
Fixpoint lookup_prev (name : string) (prev : list (string * float)) : float :=
  match prev with
  | [] => NaN
  | (n, p) :: rest => if String.eqb n name then p else lookup_prev name rest
  end.

Fixpoint grouped_pct_change (prev : list (string * float))
    (rows : list (string * Z * float)) : list food_agg_row :=
  match rows with
  | [] => []
  | (name, year, price) :: rest =>
      {| fa_country_name := name;
         fa_year_recorded := year;
         fa_price_paid := price;
         food_inflation :=
           ((price / lookup_prev name prev - of_Z 1) * of_Z 100)%F |}
      :: grouped_pct_change ((name, price) :: prev) rest
  end.

(** [food_agg], with its [food_inflation] column. *)
Definition food_agg (food : list Food.row) : list food_agg_row :=
  grouped_pct_change []
    (map (fun g => (fst g, series_mean (map Food.price_paid (snd g))))
         (groupby key2_dec key2_leb name_year food)).

(** [food_trends]: one row per country name. *)
Definition food_trends (food : list Food.row) : list food_trend :=
  map (fun g =>
         {| ft_country_name := fst g;
            ft_avg_food_inflation := series_mean (map food_inflation (snd g)) |})
      (groupby string_dec String.leb
               (fun r => Some (fa_country_name r)) (food_agg food)).

Definition key_match (l : option string) (r : string) : bool :=
  match l with
  | Some c => String.eqb c r
  | None => false
  end.

Definition risk_score (fert_rate density avg_inflation : float) : float :=
  (fert_rate * Fin 0.3 + (density / of_Z 1000) * Fin 0.2
   + fabs avg_inflation * Fin 0.5)%F.

(** [pd.merge(left, right, how='inner', left_on='Country',
    right_on='country-name')]: the pairs of a left row and a right row with
    equal keys, in the order of the left rows. *)
Definition pd_merge (left : list Country.row) (right : list food_trend)
  : list (Country.row * food_trend) :=
  flat_map
    (fun l =>
       map (fun t => (l, t))
           (filter (fun t => key_match (Country.Country l) (ft_country_name t))
                   right))
    left.

(** The assignment of the [poverty_risk_score] column. *)
Definition with_score (p : Country.row * food_trend) : merged :=
  {| country := fst p;
     country_name := ft_country_name (snd p);
     avg_food_inflation := ft_avg_food_inflation (snd p);
     poverty_risk_score :=
       risk_score (Country.Fert_Rate (fst p)) (Country.Density (fst p))
                  (ft_avg_food_inflation (snd p)) |}.

(** [merged_df], score column included. *)
Definition merged_df (country : list Country.row) (food : list Food.row)
  : list merged :=
  map with_score (pd_merge (country_clean country) (food_trends food)).

End Joiner.

(** ** Life-expectancy enricher *)

Module Life.

Record raw : Type := mk_raw {
  raw_Country : option string;
  raw_Males_Life_Expectancy : float;
  raw_Females_Life_Expectancy : float;
  raw_Life_Expectancy_Combined : float
}.

Record row : Type := mk_row {
  Country : option string;
  Males_Life_Expectancy : float;
  Females_Life_Expectancy : float;
  Life_Expectancy_Combined : float;
  Gender_Gap : float
}.

(** [process_life_expectancy(life)] *)
Definition process_life_expectancy (life : list raw) : list row :=
  map (fun r =>
         {| Country := raw_Country r;
            Males_Life_Expectancy := raw_Males_Life_Expectancy r;
            Females_Life_Expectancy := raw_Females_Life_Expectancy r;
            Life_Expectancy_Combined := raw_Life_Expectancy_Combined r;
            Gender_Gap :=
              (raw_Females_Life_Expectancy r - raw_Males_Life_Expectancy r)%F |})
      life.

End Life.

(** ** Cross-table joiner: purchasing power (inflation-poverty tab) *)

(** [astype(str)] on an integer: its decimal numeral. *)
Definition astype_str (z : Z) : string := NilZero.string_of_int (Z.to_int z).

(** [numpy.rint]: the nearest integer, a tie going to the even one. *)
Definition round_half_even (q : Q) : Z :=
  let f := Qfloor q in
  match ((q - inject_Z f) ?= (1 # 2))%Q with
  | Lt => f
  | Gt => (f + 1)%Z
  | Eq => if Z.even f then f else (f + 1)%Z
  end.

(** The power of two at or below a positive number: [e] with
    [2^e <= a < 2^(e+1)]. *)
Definition binade (a : Q) : Z :=
  let k := (Z.log2 (Qnum a) - Z.log2 (Zpos (Qden a)))%Z in
  if Qle_bool (Qpower 2 k) a then k else (k - 1)%Z.

(** The double nearest to a number: 53 significant bits, a tie going to the
    even significand.  The exponent is not bounded here: no overflow to an
    infinity, no subnormal numbers. *)
Definition to_f64 (q : Q) : Q :=
  if Qeq_bool q 0 then 0
  else let ulp := Qpower 2 (binade (Qabs q) - 52) in
       Qred (inject_Z (round_half_even (q / ulp)) * ulp).

(** [Series.round(2)] on one value, as numpy does it on doubles: the value
    times 100, [rint] of it, and that over 100, each of the two operations
    giving the nearest double; infinities and the missing value stay.  The
    quotient that comes in is the exact one of the two cells, and is first
    brought to the nearest double, as the division of the two doubles
    gives it. *)
Definition round2 (x : float) : float :=
  match x with
  | Fin q =>
      Fin (to_f64 (inject_Z (round_half_even (to_f64 (to_f64 q * inject_Z 100)))
                   / inject_Z 100))%Q
  | _ => x
  end.

Module Income.

(** A cell of a year column as the CSV reader leaves it: a number, or a text
    when the column holds something that is not a number. *)
Inductive cell : Type :=
| Num (x : float)
| Text (s : string).

(** A row of the wide income table: the country, and its cell in each of the
    year columns, by the column's name. *)
Record row : Type := mk_row {
  Country : option string;
  Income_of : string -> cell
}.

Record df : Type := mk_df {
  year_columns : list string;
  rows : list row
}.

End Income.

Module PurchasingPower.

Record income_long_row : Type := mk_income_long_row {
  il_Country : option string;
  il_Year : string;
  il_Income : Income.cell
}.

Record food_avg_row : Type := mk_food_avg_row {
  fv_country_name : string;
  fv_year_recorded : Z;
  fv_price_paid : float;
  fv_Year : string
}.

Record row : Type := mk_row {
  Country : option string;
  Year : string;
  Income : float;
  country_name : string;
  year_recorded : Z;
  price_paid : float;
  Purchasing_Power : float
}.

(** [income_clean.melt(id_vars='Country', var_name='Year',
    value_name='Income')] after the normalisation of [Country]: one row per
    year column and country, the columns one after the other. *)
Definition income_long (income : Income.df) : list income_long_row :=
  flat_map
    (fun year =>
       map (fun r =>
              {| il_Country := normalize_name (Income.Country r);
                 il_Year := year;
                 il_Income := Income.Income_of r year |})
           (Income.rows income))
    (Income.year_columns income).

(** [food_avg], with its [Year] column. *)
Definition food_avg (food : list Food.row) : list food_avg_row :=
  map (fun g =>
         {| fv_country_name := fst (fst g);
            fv_year_recorded := snd (fst g);
            fv_price_paid := series_mean (map Food.price_paid (snd g));
            fv_Year := astype_str (snd (fst g)) |})
      (groupby key2_dec key2_leb Joiner.name_year food).

Definition keys_match (l : income_long_row) (r : food_avg_row) : bool :=
  Joiner.key_match (il_Country l) (fv_country_name r)
  && String.eqb (il_Year l) (fv_Year r).

(** [pd.merge(income_long, food_avg, left_on=['Country', 'Year'],
    right_on=['country-name', 'Year'])], an inner join. *)
Definition pd_merge (left : list income_long_row) (right : list food_avg_row)
  : list (income_long_row * food_avg_row) :=
  flat_map (fun l => map (fun r => (l, r)) (filter (keys_match l) right)) left.

Section WithParser.

Variable str_to_float : string -> option float.

(** [pd.to_numeric(..., errors='coerce')] on a cell: a number is kept, a
    text is read. *)
Definition to_numeric_cell (errors : errors_mode) (c : Income.cell)
  : result float :=
  match c with
  | Income.Num x => Ok x
  | Income.Text s => Cleaner.to_numeric str_to_float errors s
  end.

(** One row of [merged_pp]: [Income] made numeric, and
    [(Income / price-paid).round(2)].  ([pd.to_numeric] on [price-paid], a
    column of means, leaves it as it is.) *)
Definition purchasing_power_row (p : income_long_row * food_avg_row)
  : result row :=
  income <- to_numeric_cell errors_coerce (il_Income (fst p)) ;;
  Ok {| Country := il_Country (fst p);
        Year := il_Year (fst p);
        Income := income;
        country_name := fv_country_name (snd p);
        year_recorded := fv_year_recorded (snd p);
        price_paid := fv_price_paid (snd p);
        Purchasing_Power := round2 (income / fv_price_paid (snd p))%F |}.

(** [merged_pp], after [dropna(subset=['Purchasing_Power'])]. *)
Definition merged_pp (income : Income.df) (food : list Food.row)
  : result (list row) :=
  rows <- mapM purchasing_power_row (pd_merge (income_long income) (food_avg food)) ;;
  Ok (filter (fun r => notna (Purchasing_Power r)) rows).

End WithParser.
End PurchasingPower.

(** ** Country deep dive: the price trends of one country *)

Definition zz_dec (x y : Z * Z) : {x = y} + {x <> y}.
Proof. decide equality; apply Z.eq_dec. Defined.

(** Order of the pairs (year, month): by year, then by month. *)
Definition zz_leb (x y : Z * Z) : bool :=
  match (fst x ?= fst y)%Z with
  | Lt => true
  | Gt => false
  | Eq => (snd x <=? snd y)%Z
  end.

(** [Series.pct_change()]: [x / x.shift(1) - 1], the first value having no
    predecessor.  (The means it is applied to are those of non-empty groups
    of present prices, so no gap is there to be filled before the
    division.) *)
Fixpoint pct_change_from (prev : float) (x : list float) : list float :=
  match x with
  | [] => []
  | v :: x' => (v / prev - of_Z 1)%F :: pct_change_from v x'
  end.

Definition pct_change (x : list float) : list float := pct_change_from NaN x.

Module DeepDive.

Record yearly_price : Type := mk_yearly_price {
  yp_year_recorded : Z;
  yp_price_paid : float
}.

Record monthly_price : Type := mk_monthly_price {
  year_recorded : Z;
  month_recorded : Z;
  price_paid : float
}.

(** The boolean mask of [country_food_data] at one row: the lower-cased name
    is the selected one and the year lies in the selected range. *)
Definition selected (selected_country_lower : string)
    (year_start_deep year_end_deep : Z) (r : Food.row) : bool :=
  match option_map str_lower (Food.country_name r) with
  | Some n => String.eqb n selected_country_lower
  | None => false
  end
  && (year_start_deep <=? Food.year_recorded r)%Z
  && (Food.year_recorded r <=? year_end_deep)%Z.

Definition country_food_data (food : list Food.row)
    (selected_country_lower : string) (year_start_deep year_end_deep : Z)
  : list Food.row :=
  filter (selected selected_country_lower year_start_deep year_end_deep) food.

(** [country_food_data.groupby('year-recorded')['price-paid'].mean()
    .reset_index()] *)
Definition avg_price_yearly (country_food_data : list Food.row)
  : list yearly_price :=
  map (fun g =>
         {| yp_year_recorded := fst g;
            yp_price_paid := series_mean (map Food.price_paid (snd g)) |})
      (groupby Z.eq_dec Z.leb (fun r => Some (Food.year_recorded r))
               country_food_data).

Definition year_month (r : monthly_price) : Z * Z :=
  (year_recorded r, month_recorded r).

(** [sort_values(['year-recorded', 'month-recorded'])]: a stable sort by
    the two columns. *)
Definition sort_values (rows : list monthly_price) : list monthly_price :=
  sort_keys (fun a b => zz_leb (year_month a) (year_month b)) rows.

(** [avg_price_month], before its [inflation_rate] column. *)
Definition avg_price_month (country_food_data : list Food.row)
  : list monthly_price :=
  sort_values
    (map (fun g =>
            {| year_recorded := fst (fst g);
               month_recorded := snd (fst g);
               price_paid := series_mean (map Food.price_paid (snd g)) |})
         (groupby zz_dec zz_leb
                  (fun r => Some (Food.year_recorded r, Food.month_recorded r))
                  country_food_data)).

(** The [inflation_rate] column: [pct_change() * 100] of the mean prices. *)
Definition inflation_rate (rows : list monthly_price) : list float :=
  map (fun c => (c * of_Z 100)%F) (pct_change (map price_paid rows)).

End DeepDive.

(** * Vocabulary of the statements, and sample tables *)

Local Open Scope Q_scope.

(** [x > c] and [x < c] for a cell and a rational bound: a missing cell is on
    neither side. *)
Definition gt_num (x : float) (c : Q) : Prop :=
  match x with
  | Fin q => c < q
  | PInf => True
  | _ => False
  end.

Definition lt_num (x : float) (c : Q) : Prop :=
  match x with
  | Fin q => q < c
  | NInf => True
  | _ => False
  end.

(** The reading of C7: a missing value replaced by 0. *)
Definition fillna0 (x : float) : float := if isna x then of_Z 0 else x.

Definition country_columns : list string :=
  ["Country"; "Population"; "Yearly-Change"; "Migrants-net"; "Median-Age";
   "Fert-Rate"; "Density"]%string.

(** A country table with the [Yearly-Change] column, whose only row has no
    value in it. *)
Definition country_without_yearly_value : Country.df :=
  {| Country.columns := country_columns;
     Country.rows :=
       [ {| Country.Country := Some "Atlantis"%string;
            Country.Population := of_Z 1000;
            Country.Yearly_Change := NaN;
            Country.Migrants_net := of_Z 10;
            Country.Median_Age := of_Z 25;
            Country.Fert_Rate := Fin 2.5;
            Country.Density := of_Z 50;
            Country.Net_Change_perc := NaN;
            Country.Migrants_per_100k := NaN;
            Country.Demographic_Status := EmptyString |} ] |}.

Definition country_without_yearly_column : Country.df :=
  {| Country.columns := ["Country"; "Population"; "Fert-Rate"]%string;
     Country.rows := Country.rows country_without_yearly_value |}.

Definition country_zero_population_row (migrants : float) : Country.row :=
  {| Country.Country := Some "Nowhere"%string;
     Country.Population := of_Z 0;
     Country.Yearly_Change := Fin 0.01;
     Country.Migrants_net := migrants;
     Country.Median_Age := of_Z 30;
     Country.Fert_Rate := Fin 2.0;
     Country.Density := of_Z 0;
     Country.Net_Change_perc := NaN;
     Country.Migrants_per_100k := NaN;
     Country.Demographic_Status := EmptyString |}.

Definition country_zero_population : Country.df :=
  {| Country.columns := country_columns;
     Country.rows :=
       [country_zero_population_row (of_Z (-500));
        country_zero_population_row (of_Z 0)] |}.

(** A cell's text is not a number once its decoration is gone: nothing is
    left of it, or the library does not read what is left as a number. *)
Definition unparseable (str_to_float : string -> option float) (s : string) : Prop :=
  Cleaner.undecorate s = EmptyString \/ str_to_float (Cleaner.undecorate s) = None.

Definition region_without_population : Region.raw :=
  {| Region.raw_Region := "Asia";
     Region.raw_Population := NaN;
     Region.raw_Urban_Pop_Perc := "60%";
     Region.raw_Yearly_Change := "0.9%";
     Region.raw_World_Share := "59%" |}.

Definition food_raw_row (name : string) (year : Z) (price : float) : Food.raw :=
  {| Food.raw_country_name := Some name;
     Food.raw_comm_purchased := Some "Rice"%string;
     Food.raw_market_type := Some "Retail"%string;
     Food.raw_year_recorded := of_Z year;
     Food.raw_month_recorded := of_Z 1;
     Food.raw_price_paid := price |}.

Definition food_raw_sample : list Food.raw :=
  [food_raw_row "X" 2019 (of_Z 10); food_raw_row "X" 2019 NaN;
   food_raw_row "X" 2020 (of_Z 0); food_raw_row "Y" 2020 (of_Z (-3));
   food_raw_row "X" 2020 (of_Z 12)]%string.

Definition finite_nonzero (x : float) : Prop :=
  match x with
  | Fin q => ~ q == 0
  | _ => False
  end.

(** [x / total * 100], the share of a value in a total. *)
Definition share_of (total x : float) : float := ((x / total) * of_Z 100)%F.

Definition und_total_undernourished (res : list Und.row * float * float) : float :=
  snd (fst res).

Definition und_total_pop (res : list Und.row * float * float) : float := snd res.

Definition und_rows (res : list Und.row * float * float) : list Und.row :=
  fst (fst res).

Definition und_all_zero : list Und.raw :=
  [ {| Und.raw_Country := Some "A"%string;
       Und.raw_Undernourished_People := of_Z 0;
       Und.raw_Population := of_Z 1000 |};
    {| Und.raw_Country := Some "B"%string;
       Und.raw_Undernourished_People := of_Z 0;
       Und.raw_Population := of_Z 2000 |} ].

Definition und_sample : list Und.raw :=
  [ {| Und.raw_Country := Some "A"%string;
       Und.raw_Undernourished_People := of_Z 50;
       Und.raw_Population := of_Z 1000 |};
    {| Und.raw_Country := Some "B"%string;
       Und.raw_Undernourished_People := of_Z 50;
       Und.raw_Population := of_Z 3000 |};
    {| Und.raw_Country := Some "C"%string;
       Und.raw_Undernourished_People := NaN;
       Und.raw_Population := NaN |} ].

(** The names under which the Country table is joined: the normalised names
    of its rows, rows without a name left out. *)
Definition country_keys (country : list Country.row) : list string :=
  present_keys (fun r => normalize_name (Country.Country r)) country.

(** The distinct countries with food data, by normalised name. *)
Definition food_countries (food : list Food.row) : list string :=
  nodup string_dec
    (present_keys (fun r => normalize_name (Food.country_name r)) food).

(** The same, by the names as they are written in the table. *)
Definition food_countries_raw (food : list Food.row) : list string :=
  nodup string_dec (present_keys Food.country_name food).

Definition country_row (name : string) (fert density : float) : Country.row :=
  {| Country.Country := Some name;
     Country.Population := of_Z 1000000;
     Country.Yearly_Change := Fin 0.01;
     Country.Migrants_net := of_Z 0;
     Country.Median_Age := of_Z 28;
     Country.Fert_Rate := fert;
     Country.Density := density;
     Country.Net_Change_perc := of_Z 1;
     Country.Migrants_per_100k := of_Z 0;
     Country.Demographic_Status := "Stable" |}.

Definition food_row (name : string) (year : Z) (price : float) : Food.row :=
  {| Food.country_name := Some name;
     Food.comm_purchased := Some "Rice"%string;
     Food.market_type := Some "Retail"%string;
     Food.year_recorded := year;
     Food.month_recorded := 1%Z;
     Food.price_paid := price |}.

(** Two rows of the Country table for one country, written differently. *)
Definition country_twice : list Country.row :=
  [country_row "India" (Fin 2.2) (of_Z 464);
   country_row " india " (Fin 2.2) (of_Z 464)]%string.

Definition food_india : list Food.row :=
  [food_row "India" 2019 (of_Z 10); food_row "India" 2020 (of_Z 12)]%string.

Definition country_sample : list Country.row :=
  [country_row "India" (Fin 2.2) (of_Z 464);
   country_row "Narnia" (Fin 1.5) (of_Z 12);
   country_row " KENYA" (Fin 3.4) (of_Z 94)]%string.

Definition food_sample : list Food.row :=
  [food_row "India" 2019 (of_Z 10); food_row "india " 2020 (of_Z 12);
   food_row "Kenya" 2020 (of_Z 7); food_row "Peru" 2020 (of_Z 3)]%string.

(** The delta as C8 words it: [last/first - 1] for at least two points, the
    sentinel 0 otherwise. *)
Definition claimed_first_last_delta (x : list float) : float :=
  if (2 <=? List.length x)%nat
  then (last x NaN / hd NaN x - of_Z 1)%F
  else of_Z 0.

(** The yearly mean prices of one commodity, in the order of
    [price_by_year]. *)
Definition yearly_prices_of (food : list Food.row) (comm : string) : list float :=
  map Aggregation.price_paid
      (filter (fun r => String.eqb comm (Aggregation.comm_purchased r))
              (Aggregation.price_by_year food)).

(** The years of those points, in the same order. *)
Definition yearly_years_of (food : list Food.row) (comm : string) : list Z :=
  map Aggregation.year_recorded
      (filter (fun r => String.eqb comm (Aggregation.comm_purchased r))
              (Aggregation.price_by_year food)).

(** A cell that holds a number, neither missing nor infinite. *)
Definition is_fin (x : float) : bool :=
  match x with
  | Fin _ => true
  | _ => false
  end.

(** The rows on which the integer coercion of the food filter succeeds, or
    which the filter drops before it. *)
Definition food_row_passes (r : Food.raw) : bool :=
  negb (Food.keep r)
  || (is_fin (Food.raw_year_recorded r) && is_fin (Food.raw_month_recorded r)).

Definition region_sample : list Region.raw :=
  [ {| Region.raw_Region := "Asia"; Region.raw_Population := of_Z 1000;
       Region.raw_Urban_Pop_Perc := "60%"; Region.raw_Yearly_Change := "0.9%";
       Region.raw_World_Share := "59%" |};
    {| Region.raw_Region := "Oceania"; Region.raw_Population := of_Z 40;
       Region.raw_Urban_Pop_Perc := "n/a"; Region.raw_Yearly_Change := "1.3 %";
       Region.raw_World_Share := "0.5%" |} ]%string.

(** Rows with a usable price of which one has no year. *)
Definition food_raw_missing_year : list Food.raw :=
  [food_raw_row "X" 2019 (of_Z 10);
   {| Food.raw_country_name := Some "X"%string;
      Food.raw_comm_purchased := Some "Rice"%string;
      Food.raw_market_type := None;
      Food.raw_year_recorded := NaN;
      Food.raw_month_recorded := of_Z 3;
      Food.raw_price_paid := of_Z 4 |}]%string.

(** A cell that is missing or holds a non-negative number. *)
Definition nonneg_or_na (x : float) : Prop :=
  match x with
  | Fin q => 0 <= q
  | NaN => True
  | _ => False
  end.

Definition und_complete : list Und.raw :=
  [ {| Und.raw_Country := Some "A"%string;
       Und.raw_Undernourished_People := of_Z 30;
       Und.raw_Population := of_Z 1000 |};
    {| Und.raw_Country := Some "B"%string;
       Und.raw_Undernourished_People := of_Z 90;
       Und.raw_Population := of_Z 500 |} ].

(** A row whose two counts are both numbers. *)
Definition und_row_complete (r : Und.raw) : Prop :=
  exists u p, Und.raw_Undernourished_People r = Fin u /\ Und.raw_Population r = Fin p.

Definition food_two_commodities : list Food.row :=
  [ food_row "X" 2019 (of_Z 10); food_row "X" 2020 (of_Z 12);
    {| Food.country_name := Some "X"%string;
       Food.comm_purchased := Some "Maize"%string;
       Food.market_type := None;
       Food.year_recorded := 2020%Z;
       Food.month_recorded := 4%Z;
       Food.price_paid := of_Z 7 |};
    {| Food.country_name := Some "Y"%string;
       Food.comm_purchased := Some "Maize"%string;
       Food.market_type := None;
       Food.year_recorded := 2020%Z;
       Food.month_recorded := 5%Z;
       Food.price_paid := of_Z 9 |} ]%string.

Definition income_sample : Income.df :=
  {| Income.year_columns := ["2019"; "2020"]%string;
     Income.rows :=
       [ {| Income.Country := Some " India"%string;
            Income.Income_of :=
              fun y => if String.eqb y "2019" then Income.Num (of_Z 100)
                       else Income.Text ".." |};
         {| Income.Country := Some "Kenya"%string;
            Income.Income_of :=
              fun y => if String.eqb y "2020" then Income.Text "36"
                       else Income.Num NaN |};
         {| Income.Country := Some "Narnia"%string;
            Income.Income_of := fun _ => Income.Num (of_Z 50) |} ] |}.

(** A cell holding the number 0, and a cell holding an infinity. *)
Definition is_zero (x : float) : Prop := exists q, x = Fin q /\ q == 0.

Definition is_infinite (x : float) : Prop := x = PInf \/ x = NInf.

(** The product of the two cells is 0 times an infinity, which is NaN. *)
Definition zero_times_infinity (x y : float) : Prop :=
  (is_zero x /\ is_infinite y) \/ (is_infinite x /\ is_zero y).

(** The scenarios of the specification for the three labels, then a row
    at the Fert-Rate boundary 2.1 and a row without Median-Age. *)
Definition country_scenario_row (fert age : float) : Country.row :=
  {| Country.Country := Some "Somewhere"%string;
     Country.Population := of_Z 1000;
     Country.Yearly_Change := Fin 0.01;
     Country.Migrants_net := of_Z 10;
     Country.Median_Age := age;
     Country.Fert_Rate := fert;
     Country.Density := of_Z 50;
     Country.Net_Change_perc := NaN;
     Country.Migrants_per_100k := NaN;
     Country.Demographic_Status := EmptyString |}.

Definition country_scenarios : Country.df :=
  {| Country.columns :=
       ["Country"; "Population"; "Yearly-Change"; "Migrants-net"; "Median-Age";
        "Fert-Rate"; "Density"]%string;
     Country.rows :=
       [country_scenario_row (Fin 2.5) (of_Z 25);
        country_scenario_row (Fin 1.5) (of_Z 45);
        country_scenario_row (Fin 2.0) (of_Z 35);
        country_scenario_row (Fin 2.1) (of_Z 25);
        country_scenario_row (Fin 2.5) NaN] |}.

(** A Country row whose normalised name is the normalised name of some food
    row. *)
Definition has_food_data (food : list Food.row) (c : Country.row) : bool :=
  match normalize_name (Country.Country c) with
  | Some n =>
      existsb (fun f => match normalize_name (Food.country_name f) with
                        | Some n' => String.eqb n n'
                        | None => false
                        end) food
  | None => false
  end.

(** The mean price of the food rows of one normalised country and one year. *)
Definition mean_price_of (food : list Food.row) (c : string) (y : Z) : float :=
  series_mean
    (map Food.price_paid
         (filter (fun f => Joiner.key_match (normalize_name (Food.country_name f)) c
                           && (Food.year_recorded f =? y)%Z)
                 food)).

(** An income table with a text that is a number, a text that is none, and
    an income whose quotient by the mean price, 23 / 40, is half-way between
    two hundredths in exact arithmetic, not as a double. *)
Definition income_pp_sample : Income.df :=
  {| Income.year_columns := ["2020"; "2021"]%string;
     Income.rows :=
       [ {| Income.Country := Some " Ghana"%string;
            Income.Income_of :=
              fun y => if String.eqb y "2021" then Income.Num (of_Z 23)
                       else Income.Text ".." |};
         {| Income.Country := Some "Kenya"%string;
            Income.Income_of :=
              fun y => if String.eqb y "2020" then Income.Text "36"
                       else Income.Num NaN |};
         {| Income.Country := Some "Narnia"%string;
            Income.Income_of := fun _ => Income.Num (of_Z 50) |} ] |}.

Definition food_pp_sample : list Food.row :=
  [food_row "Ghana" 2021 (of_Z 30); food_row "ghana " 2021 (of_Z 50);
   food_row "Ghana" 2020 (of_Z 9); food_row "Kenya" 2020 (of_Z 7);
   food_row "Peru" 2020 (of_Z 3)]%string.

(** A Region row whose Urban-Pop-Perc text reads as an infinity. *)
Definition region_infinite_share : Region.raw :=
  {| Region.raw_Region := "Atlantis"; Region.raw_Population := of_Z 1000;
     Region.raw_Urban_Pop_Perc := "inf%"; Region.raw_Yearly_Change := "0%";
     Region.raw_World_Share := "0%" |}%string.

(** The Region rows of the examples together: a percentage, a text that is
    no number, an infinity, and a row without Population. *)
Definition region_cases : list Region.raw :=
  region_sample ++ [region_infinite_share; region_without_population].

(** * Properties *)

(** ** Numeric cells *)

Lemma feq_refl x : x =f= x.
Proof. destruct x; simpl; auto. reflexivity. Qed.

Lemma feq_sym x y : x =f= y -> y =f= x.
Proof. destruct x, y; simpl; auto. intros H; symmetry; exact H. Qed.

Lemma feq_trans x y z : x =f= y -> y =f= z -> x =f= z.
Proof.
  destruct x, y, z; simpl; auto; try tauto.
  intros H1 H2; rewrite H1; exact H2.
Qed.

Lemma fgtb_gt_num x c : (x >? Fin c)%F = true <-> gt_num x c.
Proof.
  unfold fgtb; destruct x as [q| | |]; simpl; try (split; [discriminate|tauto]); try tauto.
  rewrite Qlt_alt. destruct (c ?= q); split; intros H; auto; discriminate.
Qed.

Lemma fltb_lt_num x c : (x <? Fin c)%F = true <-> lt_num x c.
Proof.
  destruct x as [q| | |]; simpl; try (split; [discriminate|tauto]); try tauto.
  rewrite Qlt_alt. destruct (q ?= c); split; intros H; auto; discriminate.
Qed.

Lemma gt_num_not_na x c : gt_num x c -> isna x = false.
Proof. destruct x; simpl; tauto. Qed.

Lemma lt_num_not_na x c : lt_num x c -> isna x = false.
Proof. destruct x; simpl; tauto. Qed.

Lemma gt_lt_num_excl x c d : d <= c -> gt_num x c -> lt_num x d -> False.
Proof.
  intros Hdc; destruct x as [q| | |]; unfold gt_num, lt_num; try tauto.
  intros Hc Hd. apply (Qlt_irrefl q).
  apply Qlt_le_trans with d; [exact Hd|].
  apply Qle_trans with c; [exact Hdc | apply Qlt_le_weak; exact Hc].
Qed.

Lemma Qsign_Eq q : Qsign q = Eq <-> q == 0.
Proof.
  unfold Qsign, Qeq. destruct q as [n d]; simpl.
  destruct n; simpl; split; intros H; try discriminate; try reflexivity; lia.
Qed.

Lemma Qsign_Lt q : Qsign q = Lt <-> 0 < q.
Proof.
  unfold Qsign, Qlt. destruct q as [n d]; simpl.
  destruct n; simpl; split; intros H; try discriminate; try reflexivity; lia.
Qed.

Lemma Qsign_Gt q : Qsign q = Gt <-> q < 0.
Proof.
  unfold Qsign, Qlt. destruct q as [n d]; simpl.
  destruct n; simpl; split; intros H; try discriminate; try reflexivity; lia.
Qed.

(** ** Country enricher *)

Lemma Forall2_map_self {A B} (R : A -> B -> Prop) (f : A -> B) (l : list A) :
  (forall x, In x l -> R x (f x)) -> Forall2 R l (map f l).
Proof.
  induction l as [|a l IH]; intros H; simpl; constructor.
  - apply H; left; reflexivity.
  - apply IH; intros x Hx; apply H; right; exact Hx.
Qed.

Section CountryFacts.

Import Country.

Lemma classify_aging_cases (r : row) :
  (classify_aging r = "Growing"%string /\
     gt_num (Fert_Rate r) 2.1 /\ lt_num (Median_Age r) 30) \/
  (classify_aging r = "Aging"%string /\
     lt_num (Fert_Rate r) 1.8 /\ gt_num (Median_Age r) 40) \/
  (classify_aging r = "Stable"%string /\
     ~ (gt_num (Fert_Rate r) 2.1 /\ lt_num (Median_Age r) 30) /\
     ~ (lt_num (Fert_Rate r) 1.8 /\ gt_num (Median_Age r) 40)).
Proof.
  unfold classify_aging, of_Z.
  destruct ((Fert_Rate r >? Fin 2.1)%F && (Median_Age r <? Fin (inject_Z 30))%F) eqn:Hg.
  - left. apply andb_true_iff in Hg as [H1 H2].
    apply fgtb_gt_num in H1. apply fltb_lt_num in H2. auto.
  - right.
    assert (Hng : ~ (gt_num (Fert_Rate r) 2.1 /\ lt_num (Median_Age r) 30)).
    { intros [H1 H2]. apply fgtb_gt_num in H1. apply fltb_lt_num in H2.
      change (Fin 30) with (Fin (inject_Z 30)) in H2.
      rewrite H1, H2 in Hg. discriminate. }
    destruct ((Fert_Rate r <? Fin 1.8)%F && (Median_Age r >? Fin (inject_Z 40))%F) eqn:Ha.
    + left. apply andb_true_iff in Ha as [H1 H2].
      apply fltb_lt_num in H1. apply fgtb_gt_num in H2. auto.
    + right. repeat split; auto.
      intros [H1 H2]. apply fltb_lt_num in H1. apply fgtb_gt_num in H2.
      change (Fin 40) with (Fin (inject_Z 40)) in H2.
      rewrite H1, H2 in Ha. discriminate.
Qed.

Lemma process_country_row_keeps (country : df) (r : row) :
  Fert_Rate (process_country_row country r) = Fert_Rate r /\
  Median_Age (process_country_row country r) = Median_Age r /\
  Demographic_Status (process_country_row country r) = classify_aging r.
Proof. repeat split. Qed.

End CountryFacts.

(** C1. The enriched Country table has the rows of the input, one for one
    and in order, with Fert-Rate and Median-Age as they were, and each row
    carries exactly one of the three labels: "Growing" exactly when its
    Fert-Rate > 2.1 and Median-Age < 30, "Aging" exactly when Fert-Rate < 1.8
    and Median-Age > 40, "Stable" in every other case; a row with a missing
    Fert-Rate or Median-Age is "Stable", and the comparisons are strict, so
    a row whose Fert-Rate equals 2.1 is not "Growing". *)
Theorem demographic_status_classification (country : Country.df) :
  Forall2
    (fun r o =>
       let s := Country.Demographic_Status o in
       let growing :=
         gt_num (Country.Fert_Rate r) 2.1 /\ lt_num (Country.Median_Age r) 30 in
       let aging :=
         lt_num (Country.Fert_Rate r) 1.8 /\ gt_num (Country.Median_Age r) 40 in
       Country.Country o = Country.Country r /\
       Country.Fert_Rate o = Country.Fert_Rate r /\
       Country.Median_Age o = Country.Median_Age r /\
       (s = "Growing"%string \/ s = "Aging"%string \/ s = "Stable"%string) /\
       (s = "Growing"%string <-> growing) /\
       (s = "Aging"%string <-> aging) /\
       (s = "Stable"%string <-> ~ growing /\ ~ aging) /\
       (isna (Country.Fert_Rate r) = true \/ isna (Country.Median_Age r) = true ->
        s = "Stable"%string) /\
       (Country.Fert_Rate r =f= Fin 2.1 -> s <> "Growing"%string))
    (Country.rows country)
    (Country.rows (Country.process_country_data country)).
Proof.
  change (Country.rows (Country.process_country_data country))
    with (map (Country.process_country_row country) (Country.rows country)).
  apply Forall2_map_self. intros r _.
  destruct (process_country_row_keeps country r) as [-> [-> ->]].
  cbv zeta. split; [reflexivity|]. split; [reflexivity|]. split; [reflexivity|].
  assert (Hexcl : ~ ((gt_num (Country.Fert_Rate r) 2.1 /\ lt_num (Country.Median_Age r) 30)
                     /\ (lt_num (Country.Fert_Rate r) 1.8 /\ gt_num (Country.Median_Age r) 40))).
  { intros [[H1 _] [H2 _]]. apply (@gt_lt_num_excl _ 2.1 1.8) in H1; auto.
    unfold Qle; simpl; lia. }
  assert (Hna : forall x c, isna x = true -> ~ gt_num x c /\ ~ lt_num x c).
  { intros x c Hx. destruct x; try discriminate. simpl; tauto. }
  destruct (classify_aging_cases r) as [[-> [H1 H2]] | [[-> [H1 H2]] | [-> [H1 H2]]]].
  - repeat split; auto; try tauto; try discriminate.
    + intros [Hx | Hx]; [destruct (Hna _ 2.1 Hx) | destruct (Hna _ 30 Hx)]; tauto.
    + intros Heq _. destruct (Country.Fert_Rate r) as [q| | |]; simpl in *; try tauto.
      rewrite Heq in H1. apply (Qlt_irrefl 2.1); exact H1.
  - repeat split; auto; try tauto; try discriminate.
    intros [Hx | Hx]; [destruct (Hna _ 1.8 Hx) | destruct (Hna _ 40 Hx)]; tauto.
  - repeat split; auto; try tauto; try discriminate.
Qed.

(** The scenarios of the specification, and the two boundaries. *)
Lemma demographic_status_classification_witness :
  map Country.Demographic_Status
      (Country.rows (Country.process_country_data country_scenarios))
  = ["Growing"; "Aging"; "Stable"; "Stable"; "Stable"]%string /\
  Forall2
    (fun r o =>
       Country.Fert_Rate o = Country.Fert_Rate r /\
       (Country.Demographic_Status o = "Growing"%string <->
        gt_num (Country.Fert_Rate r) 2.1 /\ lt_num (Country.Median_Age r) 30))
    (Country.rows country_scenarios)
    (Country.rows (Country.process_country_data country_scenarios)).
Proof.
  split; [reflexivity|].
  eapply Forall2_impl; [|apply (demographic_status_classification country_scenarios)].
  intros r o H. cbv zeta in H.
  destruct H as [_ [Hf [_ [_ [Hg _]]]]]. split; [exact Hf | exact Hg].
Defined.

(** C7, as stated, fails: with the [Yearly-Change] column present and the
    row's value missing, [Net_Change_perc] is missing, not 0. *)
Lemma net_change_missing_value_counterexample :
  Country.in_columns "Net_Change_perc" country_without_yearly_value = false /\
  ~ Forall2
      (fun r o =>
         Country.Net_Change_perc o
         =f= (fillna0 (Country.Yearly_Change r) * of_Z 100)%F)
      (Country.rows country_without_yearly_value)
      (Country.rows (Country.process_country_data country_without_yearly_value)).
Proof.
  split; [reflexivity|].
  intros H. inversion H as [|r o l l' Hro _]; subst.
  vm_compute in Hro. exact Hro.
Qed.

(** C7, amended. When the table has no [Net_Change_perc] column, every row's
    [Net_Change_perc] is [Yearly-Change * 100] if the table has a
    [Yearly-Change] column, a missing value staying missing, and is 0 in
    every row if the table has no such column. *)
Theorem net_change_perc_column_default (country : Country.df) :
  Country.in_columns "Net_Change_perc" country = false ->
  Forall2
    (fun r o =>
       if Country.in_columns "Yearly-Change" country
       then Country.Net_Change_perc o = (Country.Yearly_Change r * of_Z 100)%F /\
            (isna (Country.Yearly_Change r) = true ->
             isna (Country.Net_Change_perc o) = true)
       else Country.Net_Change_perc o =f= of_Z 0)
    (Country.rows country)
    (Country.rows (Country.process_country_data country)).
Proof.
  intros Hnc. simpl. apply Forall2_map_self. intros r _.
  unfold Country.process_country_row, Country.net_change_perc,
    Country.get_Yearly_Change; simpl.
  rewrite Hnc; simpl.
  destruct (Country.in_columns "Yearly-Change" country).
  - split; [reflexivity|].
    destruct (Country.Yearly_Change r); simpl; intros H; try discriminate; reflexivity.
  - vm_compute. reflexivity.
Qed.

Lemma net_change_perc_column_default_witness :
  (Country.in_columns "Net_Change_perc" country_without_yearly_value = false /\
   map Country.Net_Change_perc
     (Country.rows (Country.process_country_data country_without_yearly_value))
   = [NaN]) /\
  (Country.in_columns "Net_Change_perc" country_without_yearly_column = false /\
   Forall2 (fun _ o => Country.Net_Change_perc o =f= of_Z 0)
     (Country.rows country_without_yearly_column)
     (Country.rows (Country.process_country_data country_without_yearly_column))).
Proof.
  split; split; try reflexivity.
  exact (net_change_perc_column_default country_without_yearly_column eq_refl).
Defined.

(** C10. A row whose Population is 0 does not make the Country enricher
    fail, and its [Migrants_per_100k] is the result of the division by zero:
    infinite (of the sign of Migrants-net) when Migrants-net is not 0, NaN
    when Migrants-net is 0 too (or is itself missing); the enriched table
    carries the row with that value, and the copy of the table that the
    joiner works on keeps the column as it is. *)
Theorem migrants_per_100k_zero_population (country : Country.df) (r : Country.row) :
  In r (Country.rows country) ->
  Country.Population r =f= of_Z 0 ->
  let o := Country.process_country_row country r in
  In o (Country.rows (Country.process_country_data country)) /\
  map Country.Migrants_per_100k
      (Joiner.country_clean (Country.rows (Country.process_country_data country)))
  = map Country.Migrants_per_100k
        (Country.rows (Country.process_country_data country)) /\
  match Country.Migrants_net r with
  | Fin m =>
      (0 < m -> Country.Migrants_per_100k o = PInf) /\
      (m < 0 -> Country.Migrants_per_100k o = NInf) /\
      (m == 0 -> Country.Migrants_per_100k o = NaN)
  | PInf => Country.Migrants_per_100k o = PInf
  | NInf => Country.Migrants_per_100k o = NInf
  | NaN => Country.Migrants_per_100k o = NaN
  end.
Proof.
  intros Hin Hpop o. split; [|split].
  - simpl. apply in_map. exact Hin.
  - unfold Joiner.country_clean. rewrite map_map. reflexivity.
  - subst o.
    change (Country.Migrants_per_100k (Country.process_country_row country r))
      with (Country.migrants_per_100k r).
    unfold Country.migrants_per_100k.
    destruct (Country.Population r) as [p| | |]; simpl in Hpop; try tauto.
    apply Qsign_Eq in Hpop.
    destruct (Country.Migrants_net r) as [m| | |]; unfold fdiv; rewrite ?Hpop;
      try reflexivity.
    repeat split; intros Hm.
    + apply Qsign_Lt in Hm. rewrite Hm. reflexivity.
    + apply Qsign_Gt in Hm. rewrite Hm. reflexivity.
    + apply Qsign_Eq in Hm. rewrite Hm. reflexivity.
Qed.

Lemma migrants_per_100k_zero_population_witness :
  map Country.Migrants_per_100k
    (Country.rows (Country.process_country_data country_zero_population))
  = [NInf; NaN] /\
  Country.Migrants_per_100k
    (Country.process_country_row country_zero_population
       (country_zero_population_row (of_Z (-500)))) = NInf.
Proof.
  split; [reflexivity|].
  assert (Hin : In (country_zero_population_row (of_Z (-500)))
                   (Country.rows country_zero_population))
    by (left; reflexivity).
  assert (Hpop : Country.Population (country_zero_population_row (of_Z (-500)))
                 =f= of_Z 0) by reflexivity.
  destruct (migrants_per_100k_zero_population country_zero_population _ Hin Hpop)
    as [_ [_ [_ [Hneg _]]]].
  apply Hneg. reflexivity.
Defined.

(** ** The error monad *)

Lemma mapM_Forall2 {A B} (f : A -> result B) (R : A -> B -> Prop) (l : list A) :
  (forall a, In a l -> exists b, f a = Ok b /\ R a b) ->
  exists bs, mapM f l = Ok bs /\ Forall2 R l bs.
Proof.
  induction l as [|a l IH]; intros H; simpl.
  - exists []. split; [reflexivity | constructor].
  - destruct (H a (or_introl eq_refl)) as [b [Hb HR]].
    destruct IH as [bs [Hbs HF]].
    { intros x Hx. apply H. right. exact Hx. }
    exists (b :: bs). rewrite Hb, Hbs. simpl. split; [reflexivity|].
    constructor; assumption.
Qed.

Lemma mapM_Ok_Forall2 {A B} (f : A -> result B) (l : list A) (bs : list B) :
  mapM f l = Ok bs -> Forall2 (fun a b => f a = Ok b) l bs.
Proof.
  revert bs. induction l as [|a l IH]; intros bs H; simpl in H.
  - inversion H. constructor.
  - destruct (f a) as [b|e] eqn:Hb; simpl in H; [|discriminate].
    destruct (mapM f l) as [bs'|e] eqn:Hbs; simpl in H; [|discriminate].
    inversion H; subst. constructor; auto.
Qed.

(** ** Scalar cleaner *)

Lemma clean_percent_cases (str_to_float : string -> option float) (s : string) :
  (unparseable str_to_float s /\ Cleaner.clean_percent str_to_float s = Ok NaN) \/
  (exists x, ~ unparseable str_to_float s /\
             str_to_float (Cleaner.undecorate s) = Some x /\
             Cleaner.clean_percent str_to_float s = Ok x).
Proof.
  unfold unparseable, Cleaner.clean_percent, Cleaner.to_numeric.
  destruct (Cleaner.undecorate s) as [|a t] eqn:Hu.
  - left. split; [left|]; reflexivity.
  - destruct (str_to_float (String a t)) as [q|] eqn:Hp.
    + right. exists q. repeat split; auto.
      intros [H|H]; discriminate.
    + left. split; [right|]; reflexivity.
Qed.

(** C6. The scalar cleaner never raises: every column of texts is cleaned to
    a column of values; and a text that, once '%' and ',' are removed, is
    empty or not a number becomes the missing value, which is not zero. *)
Theorem clean_percent_col_coerces (str_to_float : string -> option float)
    (col : list string) :
  exists vs,
    Cleaner.clean_percent_col str_to_float col = Ok vs /\
    Forall2
      (fun s v =>
         Cleaner.clean_percent str_to_float s = Ok v /\
         (unparseable str_to_float s ->
          v = NaN /\ isna v = true /\ ~ v =f= of_Z 0))
      col vs.
Proof.
  unfold Cleaner.clean_percent_col. apply mapM_Forall2.
  intros s _.
  destruct (clean_percent_cases str_to_float s) as [[Hu Hc] | [q [Hu [_ Hc]]]].
  - exists NaN. repeat split; auto.
  - exists q. repeat split; auto; contradiction.
Qed.

Example clean_percent_col_example :
  Cleaner.clean_percent_col parse_float
    ["60%"; "1,234.5"; "n/a"; "%"; EmptyString; "-0.5 %"]%string
  = Ok [Fin 60; Fin (2469 # 2); NaN; NaN; NaN; Fin (-1 # 2)].
Proof. reflexivity. Qed.

(** ** Region enricher *)

Lemma fdiv_Fin_100 q : (Fin q / of_Z 100)%F = Fin (q / inject_Z 100).
Proof. reflexivity. Qed.

Lemma urban_rural_split (p u : Q) :
  let urban := (Fin p * Fin u / of_Z 100)%F in
  (urban + (Fin p - urban))%F =f= Fin p.
Proof. simpl. ring. Qed.

Lemma urban_rural_cases (P u : float) :
  let urban := (P * u / of_Z 100)%F in
  let rural := (P - urban)%F in
  (is_fin P && is_fin u = true ->
   notna urban = true /\ notna rural = true /\ (urban + rural)%F =f= P) /\
  (is_fin P && is_fin u = false -> (urban + rural)%F = NaN) /\
  ((urban = NaN /\ rural = NaN) <->
   (P = NaN \/ u = NaN \/ zero_times_infinity P u)).
Proof.
  cbv zeta. unfold zero_times_infinity, is_zero, is_infinite.
  destruct P as [p| | |], u as [v| | |].
  - (* both finite *)
    split; [|split].
    + intros _. split; [reflexivity|]. split; [reflexivity|]. apply urban_rural_split.
    + discriminate.
    + split.
      * intros [H _]. discriminate H.
      * intros [H|[H|[[[q [H _]] [Hi|Hi]]|[[Hi|Hi] _]]]]; discriminate.
  - (* finite Population, +inf *)
    split; [discriminate|].
    unfold fmul, fsign, sign_mul.
    destruct (Qsign p) eqn:Hs; cbn; (split; [intros _; reflexivity|]); split;
      try (intros [H _]; discriminate H); try (intros _; split; reflexivity);
      try (intros _; right; right; left; split;
           [exists p; split; [reflexivity | apply Qsign_Eq; exact Hs] | left; reflexivity]);
      intros [H|[H|[[[q [Hq Hz]] _]|[[Hi|Hi] _]]]]; try discriminate;
      inversion Hq; subst q; apply Qsign_Eq in Hz; congruence.
  - (* finite Population, -inf *)
    split; [discriminate|].
    unfold fmul, fsign, sign_mul.
    destruct (Qsign p) eqn:Hs; cbn; (split; [intros _; reflexivity|]); split;
      try (intros [H _]; discriminate H); try (intros _; split; reflexivity);
      try (intros _; right; right; left; split;
           [exists p; split; [reflexivity | apply Qsign_Eq; exact Hs] | right; reflexivity]);
      intros [H|[H|[[[q [Hq Hz]] _]|[[Hi|Hi] _]]]]; try discriminate;
      inversion Hq; subst q; apply Qsign_Eq in Hz; congruence.
  - (* finite Population, NaN *)
    split; [discriminate|]. split; [intros _; reflexivity|].
    split; [intros _; right; left; reflexivity | intros _; split; reflexivity].
  - (* +inf Population, finite *)
    split; [discriminate|].
    unfold fmul, fsign, sign_mul.
    destruct (Qsign v) eqn:Hs; cbn; (split; [intros _; reflexivity|]); split;
      try (intros [H _]; discriminate H); try (intros _; split; reflexivity);
      try (intros _; right; right; right; split;
           [left; reflexivity | exists v; split; [reflexivity | apply Qsign_Eq; exact Hs]]);
      intros [H|[H|[[[q [Hq _]] _]|[_ [q [Hq Hz]]]]]]; try discriminate;
      inversion Hq; subst q; apply Qsign_Eq in Hz; congruence.
  - split; [discriminate|]. cbn. split; [intros _; reflexivity|]. split.
    + intros [H _]. discriminate H.
    + intros [H|[H|[[[q [Hq _]] _]|[_ [q [Hq _]]]]]]; discriminate.
  - split; [discriminate|]. cbn. split; [intros _; reflexivity|]. split.
    + intros [H _]. discriminate H.
    + intros [H|[H|[[[q [Hq _]] _]|[_ [q [Hq _]]]]]]; discriminate.
  - split; [discriminate|]. split; [intros _; reflexivity|].
    split; [intros _; right; left; reflexivity | intros _; split; reflexivity].
  - (* -inf Population, finite *)
    split; [discriminate|].
    unfold fmul, fsign, sign_mul.
    destruct (Qsign v) eqn:Hs; cbn; (split; [intros _; reflexivity|]); split;
      try (intros [H _]; discriminate H); try (intros _; split; reflexivity);
      try (intros _; right; right; right; split;
           [right; reflexivity | exists v; split; [reflexivity | apply Qsign_Eq; exact Hs]]);
      intros [H|[H|[[[q [Hq _]] _]|[_ [q [Hq Hz]]]]]]; try discriminate;
      inversion Hq; subst q; apply Qsign_Eq in Hz; congruence.
  - split; [discriminate|]. cbn. split; [intros _; reflexivity|]. split.
    + intros [H _]. discriminate H.
    + intros [H|[H|[[[q [Hq _]] _]|[_ [q [Hq _]]]]]]; discriminate.
  - split; [discriminate|]. cbn. split; [intros _; reflexivity|]. split.
    + intros [H _]. discriminate H.
    + intros [H|[H|[[[q [Hq _]] _]|[_ [q [Hq _]]]]]]; discriminate.
  - split; [discriminate|]. split; [intros _; reflexivity|].
    split; [intros _; right; left; reflexivity | intros _; split; reflexivity].
  - split; [discriminate|]. split; [intros _; reflexivity|].
    split; [intros _; left; reflexivity | intros _; split; reflexivity].
  - split; [discriminate|]. split; [intros _; reflexivity|].
    split; [intros _; left; reflexivity | intros _; split; reflexivity].
  - split; [discriminate|]. split; [intros _; reflexivity|].
    split; [intros _; left; reflexivity | intros _; split; reflexivity].
  - split; [discriminate|]. split; [intros _; reflexivity|].
    split; [intros _; left; reflexivity | intros _; split; reflexivity].
Qed.

Lemma process_region_row_spec (str_to_float : string -> option float) (r : Region.raw) :
  exists o,
    Region.process_region_row str_to_float r = Ok o /\
    Region.Population o = Region.raw_Population r /\
    Cleaner.clean_percent str_to_float (Region.raw_Urban_Pop_Perc r)
      = Ok (Region.Urban_Pop_Perc o) /\
    Region.Urban_Pop o
      = (Region.Population o * Region.Urban_Pop_Perc o / of_Z 100)%F /\
    Region.Rural_Pop o = (Region.Population o - Region.Urban_Pop o)%F.
Proof.
  unfold Region.process_region_row.
  destruct (clean_percent_cases str_to_float (Region.raw_Urban_Pop_Perc r))
    as [[_ ->] | [u [_ [_ ->]]]];
  destruct (clean_percent_cases str_to_float (Region.raw_Yearly_Change r))
    as [[_ ->] | [y [_ [_ ->]]]];
  destruct (clean_percent_cases str_to_float (Region.raw_World_Share r))
    as [[_ ->] | [w [_ [_ ->]]]];
  simpl; eexists; repeat split.
Qed.

(** C3, as stated, fails: a row whose Population is missing has both
    [Urban_Pop] and [Rural_Pop] missing although its Urban-Pop-Perc, "60%",
    is read as the number 60. *)
Lemma region_missing_population_counterexample :
  exists o,
    Region.process_region_data parse_float [region_without_population] = Ok [o] /\
    Region.Urban_Pop_Perc o = Fin 60 /\
    ~ ((isna (Region.Urban_Pop o) = true /\ isna (Region.Rural_Pop o) = true)
       <-> unparseable parse_float
             (Region.raw_Urban_Pop_Perc region_without_population)).
Proof.
  eexists. split; [reflexivity|]. split; [reflexivity|].
  intros [H _]. destruct (H (conj eq_refl eq_refl)) as [H1 | H1]; discriminate H1.
Qed.

(** A text that reads as an infinity is a number for the cleaner:
    [Urban_Pop] is then infinite, [Rural_Pop] the opposite infinity, and
    their sum is missing. *)
Example region_infinite_share_example :
  exists o,
    Region.process_region_data parse_float [region_infinite_share] = Ok [o] /\
    ~ unparseable parse_float (Region.raw_Urban_Pop_Perc region_infinite_share) /\
    Region.Urban_Pop_Perc o = PInf /\
    Region.Urban_Pop o = PInf /\
    Region.Rural_Pop o = NInf /\
    (Region.Urban_Pop o + Region.Rural_Pop o)%F = NaN.
Proof.
  eexists. split; [reflexivity|]. split; [|repeat split; reflexivity].
  intros H. vm_compute in H. destruct H as [H|H]; discriminate H.
Qed.

(** C3, amended. The Region enricher returns a table for every input, row
    for row.  In every row [Urban_Pop + Rural_Pop] equals Population when
    Population and the cleaned Urban-Pop-Perc are both finite numbers (and
    then neither field is missing), and is missing otherwise.  [Urban_Pop]
    and [Rural_Pop] are both missing if and only if the cleaned
    Urban-Pop-Perc is missing (which is when the text is not read as a
    number, or is read as NaN), or Population is missing, or one of the two
    is 0 and the other infinite. *)
Theorem region_urban_rural (str_to_float : string -> option float)
    (region : list Region.raw) :
  exists out,
    Region.process_region_data str_to_float region = Ok out /\
    Forall2
      (fun r o =>
         Region.Population o = Region.raw_Population r /\
         Cleaner.clean_percent str_to_float (Region.raw_Urban_Pop_Perc r)
         = Ok (Region.Urban_Pop_Perc o) /\
         (Region.Urban_Pop_Perc o = NaN <->
          unparseable str_to_float (Region.raw_Urban_Pop_Perc r) \/
          str_to_float (Cleaner.undecorate (Region.raw_Urban_Pop_Perc r)) = Some NaN) /\
         (is_fin (Region.Population o) && is_fin (Region.Urban_Pop_Perc o) = true ->
          notna (Region.Urban_Pop o) = true /\ notna (Region.Rural_Pop o) = true /\
          (Region.Urban_Pop o + Region.Rural_Pop o)%F =f= Region.Population o) /\
         (is_fin (Region.Population o) && is_fin (Region.Urban_Pop_Perc o) = false ->
          (Region.Urban_Pop o + Region.Rural_Pop o)%F = NaN) /\
         ((Region.Urban_Pop o = NaN /\ Region.Rural_Pop o = NaN) <->
          (Region.Population o = NaN \/ Region.Urban_Pop_Perc o = NaN \/
           zero_times_infinity (Region.Population o) (Region.Urban_Pop_Perc o))))
      region out.
Proof.
  unfold Region.process_region_data. apply mapM_Forall2.
  intros r _.
  destruct (process_region_row_spec str_to_float r)
    as [o [Ho [Hpop [Hperc [Hu Hr]]]]].
  exists o. split; [exact Ho|]. split; [exact Hpop|]. split; [exact Hperc|].
  split.
  { destruct (clean_percent_cases str_to_float (Region.raw_Urban_Pop_Perc r))
      as [[Hun Hc] | [x [Hnot [Hx Hc]]]];
      rewrite Hc in Hperc; injection Hperc as Hperc.
    - split; [intros _; left; exact Hun | intros _; symmetry; exact Hperc].
    - rewrite <- Hperc. split.
      + intros ->. right. exact Hx.
      + intros [Hun|Hn]; [contradiction | congruence]. }
  rewrite Hr, Hu. apply urban_rural_cases.
Qed.

Lemma region_urban_rural_witness :
  exists out,
    Region.process_region_data parse_float region_cases = Ok out /\
    Forall2
      (fun r o =>
         Region.Population o = Region.raw_Population r /\
         ((Region.Urban_Pop o = NaN /\ Region.Rural_Pop o = NaN) <->
          (Region.Population o = NaN \/ Region.Urban_Pop_Perc o = NaN \/
           zero_times_infinity (Region.Population o) (Region.Urban_Pop_Perc o))))
      region_cases out /\
    map (fun o => (isna (Region.Urban_Pop o), isna (Region.Rural_Pop o))) out
    = [(false, false); (true, true); (false, false); (true, true)] /\
    map (fun o => isna (Region.Urban_Pop o + Region.Rural_Pop o)%F) out
    = [false; true; true; true].
Proof.
  destruct (region_urban_rural parse_float region_cases) as [out [Hout HF]].
  exists out. split; [exact Hout|]. split.
  - eapply Forall2_impl; [|exact HF]. intros r o H.
    split; [apply H | apply H].
  - vm_compute in Hout. injection Hout as <-. split; reflexivity.
Defined.

(** The scenario of the specification: Asia, 1000 inhabitants, "60%" urban. *)
Example region_scenario :
  exists o,
    Region.process_region_data parse_float
      [ {| Region.raw_Region := "Asia"; Region.raw_Population := of_Z 1000;
           Region.raw_Urban_Pop_Perc := "60%";
           Region.raw_Yearly_Change := "0.9%";
           Region.raw_World_Share := "59%" |} ] = Ok [o] /\
    Region.Urban_Pop o =f= of_Z 600 /\ Region.Rural_Pop o =f= of_Z 400.
Proof. eexists. repeat split. Qed.

(** ** Food price filter *)

Lemma keep_spec (r : Food.raw) :
  Food.keep r = true <->
  notna (Food.raw_price_paid r) = true /\ gt_num (Food.raw_price_paid r) 0.
Proof.
  unfold Food.keep. rewrite andb_true_iff.
  change (of_Z 0) with (Fin 0). rewrite fgtb_gt_num. tauto.
Qed.

Lemma coerce_row_price (r : Food.raw) (o : Food.row) :
  Food.coerce_row r = Ok o -> Food.price_paid o = Food.raw_price_paid r.
Proof.
  unfold Food.coerce_row. intros H.
  destruct (astype_int (Food.raw_year_recorded r)); simpl in H; [|discriminate].
  destruct (astype_int (Food.raw_month_recorded r)); simpl in H; [|discriminate].
  inversion H. reflexivity.
Qed.

(** The filter returns a table whenever the rows it keeps have a year and a
    month that are numbers. *)
Lemma process_food_data_returns (food : list Food.raw) :
  Forall (fun r => Food.keep r = true ->
                   exists y m, Food.raw_year_recorded r = Fin y /\
                               Food.raw_month_recorded r = Fin m) food ->
  exists out, Food.process_food_data food = Ok out /\
              List.length out = List.length (filter Food.keep food).
Proof.
  intros H. unfold Food.process_food_data.
  destruct (@mapM_Forall2 _ _ Food.coerce_row (fun _ _ => True) (filter Food.keep food))
    as [out [Hout HF]].
  - intros r Hr. apply filter_In in Hr as [Hin Hk].
    rewrite Forall_forall in H. destruct (H r Hin Hk) as [y [m [Hy Hm]]].
    unfold Food.coerce_row. rewrite Hy, Hm. simpl. eexists. split; [reflexivity | exact I].
  - exists out. split; [exact Hout|]. symmetry. eapply Forall2_length; eassumption.
Qed.

(** C5. Every row of the Food Price Filter's output has a price-paid that is
    present and strictly greater than 0. *)
Theorem food_filter_positive_prices (food : list Food.raw) (out : list Food.row) :
  Food.process_food_data food = Ok out ->
  Forall (fun o => notna (Food.price_paid o) = true /\ gt_num (Food.price_paid o) 0)
         out.
Proof.
  unfold Food.process_food_data. intros H.
  apply mapM_Ok_Forall2 in H.
  assert (Hk : Forall (fun r => Food.keep r = true) (filter Food.keep food)).
  { apply Forall_forall. intros r Hr. apply filter_In in Hr. tauto. }
  induction H as [|r o l l' Hro _ IH]; constructor.
  - inversion Hk; subst. rewrite (coerce_row_price _ Hro). apply keep_spec. assumption.
  - apply IH. inversion Hk; assumption.
Qed.

Lemma food_filter_positive_prices_witness :
  exists out,
    Food.process_food_data food_raw_sample = Ok out /\
    map Food.price_paid out = [of_Z 10; of_Z 12] /\
    Forall (fun o => notna (Food.price_paid o) = true /\ gt_num (Food.price_paid o) 0)
           out.
Proof.
  eexists. split; [reflexivity|]. split; [reflexivity|].
  apply (@food_filter_positive_prices food_raw_sample). reflexivity.
Defined.

(** ** Undernourishment enricher *)

Lemma fold_fadd_not_fin (l : list float) (a : float) :
  (forall q, a <> Fin q) -> forall t, fold_left fadd l a <> Fin t.
Proof.
  revert a. induction l as [|x l IH]; intros a Ha t; simpl.
  - apply Ha.
  - apply IH. intros q. destruct a as [p| | |]; [destruct (Ha p eq_refl)| | |];
      destruct x; simpl; discriminate.
Qed.

Lemma share_of_Fin (t q : Q) :
  ~ t == 0 -> share_of (Fin t) (Fin q) = Fin (q / t * inject_Z 100).
Proof.
  intros Ht. unfold share_of, fdiv.
  destruct (Qsign t) eqn:Hs; try reflexivity.
  apply Qsign_Eq in Hs. contradiction.
Qed.

Lemma shares_fold (t : Q) (s : list float) :
  ~ t == 0 ->
  forall a b T,
    fold_left fadd (filter notna s) (Fin a) = Fin T ->
    exists r,
      fold_left fadd (filter notna (map (share_of (Fin t)) s)) (Fin b) = Fin r /\
      r == b + (T - a) / t * inject_Z 100.
Proof.
  intros Ht. induction s as [|x s IH]; intros a b T H; simpl in *.
  - inversion H; subst. exists b. split; [reflexivity|]. field. exact Ht.
  - destruct x as [q| | |]; simpl in H.
    + rewrite (share_of_Fin q Ht). simpl.
      destruct (IH _ (b + q / t * inject_Z 100) _ H) as [r [Hr Hq]].
      exists r. split; [exact Hr|]. rewrite Hq. field. exact Ht.
    + exfalso. revert H. apply fold_fadd_not_fin. discriminate.
    + exfalso. revert H. apply fold_fadd_not_fin. discriminate.
    + simpl. apply IH. exact H.
Qed.

Lemma shares_sum_100 (total : float) (s : list float) :
  series_sum s = total -> finite_nonzero total ->
  series_sum (map (share_of total) s) =f= of_Z 100.
Proof.
  unfold series_sum. intros Hs Hfin.
  destruct total as [t| | |]; simpl in Hfin; try contradiction.
  destruct (@shares_fold t s Hfin 0 0 t Hs) as [r [Hr Hq]].
  change (of_Z 0) with (Fin 0). rewrite Hr. simpl. rewrite Hq.
  unfold inject_Z. field. exact Hfin.
Qed.

(** C4, as stated, fails: in a table whose rows all carry a present
    Undernourished-People of 0 the total is 0, every [Global_Burden_Share]
    is 0/0, and their sum is not 100. *)
Lemma burden_share_zero_total_counterexample :
  Forall (fun r => notna (Und.raw_Undernourished_People r) = true /\
                   notna (Und.raw_Population r) = true) und_all_zero /\
  map Und.Global_Burden_Share
      (und_rows (Und.process_undernourishment_data und_all_zero)) = [NaN; NaN] /\
  ~ series_sum
      (map Und.Global_Burden_Share
           (und_rows (Und.process_undernourishment_data und_all_zero)))
    =f= of_Z 100.
Proof.
  split; [repeat constructor|]. split; [reflexivity|].
  vm_compute. intros H. discriminate H.
Qed.

(** C4, amended. Whenever the total of Undernourished-People is a number
    other than 0, the [Global_Burden_Share] values of the output sum to 100;
    whenever the total of Population is a number other than 0, the
    [Population_Share] values sum to 100 (missing shares are skipped by the
    sum). *)
Theorem burden_and_population_shares_sum (und : list Und.raw) :
  let res := Und.process_undernourishment_data und in
  (finite_nonzero (und_total_undernourished res) ->
   series_sum (map Und.Global_Burden_Share (und_rows res)) =f= of_Z 100) /\
  (finite_nonzero (und_total_pop res) ->
   series_sum (map Und.Population_Share (und_rows res)) =f= of_Z 100).
Proof.
  cbv zeta. unfold und_total_undernourished, und_total_pop, und_rows,
    Und.process_undernourishment_data. simpl fst. simpl snd.
  rewrite !map_map.
  split; intros Hfin.
  - change (map _ und)
      with (map (fun r => share_of
                            (series_sum (map Und.raw_Undernourished_People und))
                            (Und.raw_Undernourished_People r)) und).
    rewrite <- (map_map Und.raw_Undernourished_People
                  (share_of (series_sum (map Und.raw_Undernourished_People und)))).
    apply shares_sum_100; [reflexivity | exact Hfin].
  - change (map _ und)
      with (map (fun r => share_of (series_sum (map Und.raw_Population und))
                                   (Und.raw_Population r)) und).
    rewrite <- (map_map Und.raw_Population
                  (share_of (series_sum (map Und.raw_Population und)))).
    apply shares_sum_100; [reflexivity | exact Hfin].
Qed.

Lemma burden_and_population_shares_sum_witness :
  let res := Und.process_undernourishment_data und_sample in
  series_sum (map Und.Global_Burden_Share (und_rows res)) =f= of_Z 100 /\
  series_sum (map Und.Population_Share (und_rows res)) =f= of_Z 100.
Proof.
  destruct (burden_and_population_shares_sum und_sample) as [H1 H2].
  split; [apply H1 | apply H2]; vm_compute; discriminate.
Defined.

(** The scenario of the specification: two rows of 50 undernourished people
    each get a share of 50. *)
Example und_scenario :
  Forall2 feq
    (map Und.Global_Burden_Share
         (und_rows (Und.process_undernourishment_data und_sample)))
    [of_Z 50; of_Z 50; NaN].
Proof. repeat constructor. Qed.

(** ** Group-by *)

Section GroupByFacts.

Variables K V : Type.
Variable K_dec : forall x y : K, {x = y} + {x <> y}.
Variable K_leb : K -> K -> bool.

Lemma insert_key_perm (k : K) (l : list K) :
  Permutation (insert_key K_leb k l) (k :: l).
Proof.
  induction l as [|h t IH]; simpl.
  - apply Permutation_refl.
  - destruct (K_leb k h).
    + apply Permutation_refl.
    + apply perm_trans with (h :: k :: t).
      * apply perm_skip. exact IH.
      * apply perm_swap.
Qed.

Lemma sort_keys_perm (l : list K) : Permutation (sort_keys K_leb l) l.
Proof.
  induction l as [|h t IH]; simpl.
  - apply perm_nil.
  - apply perm_trans with (h :: sort_keys K_leb t).
    + apply insert_key_perm.
    + apply perm_skip. exact IH.
Qed.

Lemma present_keys_In (key : V -> option K) (rows : list V) (k : K) :
  In k (present_keys key rows) <-> exists r, In r rows /\ key r = Some k.
Proof.
  unfold present_keys. rewrite in_flat_map. split.
  - intros [r [Hr Hk]]. exists r. split; [exact Hr|].
    destruct (key r) as [k'|]; simpl in Hk; [|contradiction].
    destruct Hk as [<-|[]]. reflexivity.
  - intros [r [Hr Hk]]. exists r. split; [exact Hr|].
    rewrite Hk. left. reflexivity.
Qed.

Lemma group_keys_NoDup (key : V -> option K) (rows : list V) :
  NoDup (group_keys K_dec K_leb key rows).
Proof.
  unfold group_keys.
  apply Permutation_NoDup with (nodup K_dec (present_keys key rows)).
  - apply Permutation_sym. apply sort_keys_perm.
  - apply NoDup_nodup.
Qed.

Lemma group_keys_In (key : V -> option K) (rows : list V) (k : K) :
  In k (group_keys K_dec K_leb key rows) <-> In k (present_keys key rows).
Proof.
  unfold group_keys. split; intros H.
  - apply (nodup_In K_dec).
    eapply Permutation_in; [apply sort_keys_perm | exact H].
  - eapply Permutation_in; [apply Permutation_sym, sort_keys_perm|].
    apply nodup_In. exact H.
Qed.

Lemma group_keys_length (key : V -> option K) (rows : list V) :
  List.length (group_keys K_dec K_leb key rows)
  = List.length (nodup K_dec (present_keys key rows)).
Proof. unfold group_keys. apply Permutation_length. apply sort_keys_perm. Qed.

Lemma groupby_keys (key : V -> option K) (rows : list V) :
  map fst (groupby K_dec K_leb key rows) = group_keys K_dec K_leb key rows.
Proof. unfold groupby. rewrite map_map. simpl. apply map_id. Qed.

Lemma in_group_spec (key : V -> option K) (k : K) (r : V) :
  in_group K_dec key k r = true <-> key r = Some k.
Proof.
  unfold in_group. destruct (key r) as [k'|].
  - destruct (K_dec k k') as [->|Hn]; split; intros H; try reflexivity; try discriminate.
    inversion H. congruence.
  - split; discriminate.
Qed.

(** A group holds exactly the rows of its key, in the table's order, and is
    not empty. *)
Lemma groupby_group (key : V -> option K) (rows : list V) (g : K * list V) :
  In g (groupby K_dec K_leb key rows) ->
  snd g = filter (in_group K_dec key (fst g)) rows /\
  snd g <> [] /\
  (forall r, In r (snd g) <-> In r rows /\ key r = Some (fst g)).
Proof.
  unfold groupby. intros H. apply in_map_iff in H as [k [<- Hk]]. simpl.
  split; [reflexivity|]. split.
  - apply group_keys_In, present_keys_In in Hk as [r [Hr Hkr]].
    intros He. assert (Hin : In r (filter (in_group K_dec key k) rows)).
    { apply filter_In. split; [exact Hr | apply in_group_spec; exact Hkr]. }
    rewrite He in Hin. exact Hin.
  - intros r. rewrite filter_In, in_group_spec. tauto.
Qed.

End GroupByFacts.

(** ** Cross-table joiner *)

Section JoinerFacts.

Import Joiner.

Lemma grouped_pct_change_names prev rows :
  map fa_country_name (grouped_pct_change prev rows)
  = map (fun x => fst (fst x)) rows.
Proof.
  revert prev. induction rows as [|[[n y] p] rows IH]; intros prev; simpl.
  - reflexivity.
  - f_equal. apply IH.
Qed.

Lemma food_agg_name (food : list Food.row) (n : string) :
  In n (map fa_country_name (food_agg food)) ->
  exists f, In f food /\ normalize_name (Food.country_name f) = Some n.
Proof.
  unfold food_agg. rewrite grouped_pct_change_names, map_map. simpl.
  intros H. apply in_map_iff in H as [g [<- Hg]].
  assert (Hk : In (fst g) (map fst (groupby key2_dec key2_leb name_year food)))
    by (apply in_map; exact Hg).
  rewrite groupby_keys in Hk.
  apply group_keys_In, present_keys_In in Hk as [f [Hf Hkey]].
  exists f. split; [exact Hf|].
  unfold name_year in Hkey.
  destruct (normalize_name (Food.country_name f)) as [c|]; simpl in Hkey;
    [|discriminate].
  inversion Hkey as [Hfst]. reflexivity.
Qed.

Lemma food_trends_names (food : list Food.row) :
  map ft_country_name (food_trends food)
  = group_keys string_dec String.leb (fun r => Some (fa_country_name r))
               (food_agg food).
Proof.
  unfold food_trends. rewrite map_map. simpl.
  rewrite <- groupby_keys. reflexivity.
Qed.

Lemma food_trends_NoDup (food : list Food.row) :
  NoDup (map ft_country_name (food_trends food)).
Proof. rewrite food_trends_names. apply group_keys_NoDup. Qed.

Lemma food_trends_name (food : list Food.row) (t : food_trend) :
  In t (food_trends food) ->
  exists f, In f food /\
            normalize_name (Food.country_name f) = Some (ft_country_name t).
Proof.
  intros Ht. apply food_agg_name.
  assert (Hn : In (ft_country_name t) (map ft_country_name (food_trends food)))
    by (apply in_map; exact Ht).
  rewrite food_trends_names in Hn.
  apply group_keys_In, present_keys_In in Hn as [a [Ha Hk]].
  inversion Hk as [Hname]. apply in_map. exact Ha.
Qed.

Lemma key_match_spec (c : option string) (n : string) :
  key_match c n = true <-> c = Some n.
Proof.
  unfold key_match. destruct c as [c|].
  - rewrite String.eqb_eq. split; congruence.
  - split; discriminate.
Qed.

Lemma pd_merge_In (left : list Country.row) (right : list food_trend) l t :
  In (l, t) (pd_merge left right) <->
  In l left /\ In t right /\ Country.Country l = Some (ft_country_name t).
Proof.
  unfold pd_merge. rewrite in_flat_map. split.
  - intros [l' [Hl' H]]. apply in_map_iff in H as [t' [Heq Ht']].
    inversion Heq; subst. apply filter_In in Ht' as [Ht' Hm].
    apply key_match_spec in Hm. auto.
  - intros [Hl [Ht Hm]]. exists l. split; [exact Hl|].
    apply in_map. apply filter_In. split; [exact Ht|].
    apply key_match_spec. exact Hm.
Qed.

Lemma filter_key_length (right : list food_trend) (c : option string) :
  NoDup (map ft_country_name right) ->
  (List.length (filter (fun t => key_match c (ft_country_name t)) right) <= 1)%nat.
Proof.
  induction right as [|t right IH]; intros Hnd; simpl.
  - lia.
  - inversion Hnd as [|n ns Hnotin Hnd']; subst.
    destruct (key_match c (ft_country_name t)) eqn:Hm.
    + apply key_match_spec in Hm.
      assert (He : filter (fun t' => key_match c (ft_country_name t')) right = []).
      { destruct (filter _ right) as [|t' rest] eqn:Hf; [reflexivity|].
        exfalso. assert (Hin : In t' (filter (fun t' => key_match c (ft_country_name t')) right))
          by (rewrite Hf; left; reflexivity).
        apply filter_In in Hin as [Hin Hm']. apply key_match_spec in Hm'.
        apply Hnotin. replace (ft_country_name t) with (ft_country_name t') by congruence.
        apply in_map. exact Hin. }
      rewrite He. simpl. lia.
    + apply IH. exact Hnd'.
Qed.

Lemma pd_merge_length_left (left : list Country.row) (right : list food_trend) :
  NoDup (map ft_country_name right) ->
  (List.length (pd_merge left right) <= List.length left)%nat.
Proof.
  intros Hnd. induction left as [|l left IH]; simpl.
  - lia.
  - rewrite length_app, length_map.
    pose proof (@filter_key_length right (Country.Country l) Hnd). lia.
Qed.

Lemma filter_names_NoDup (keep : food_trend -> bool) (right : list food_trend) :
  NoDup (map ft_country_name right) ->
  NoDup (map ft_country_name (filter keep right)).
Proof.
  intros Hnd. induction right as [|t right IH]; simpl; [constructor|].
  inversion Hnd as [|n ns Hnotin Hnd']; subst.
  destruct (keep t); simpl; [|apply IH; exact Hnd'].
  constructor; [|apply IH; exact Hnd'].
  intros Hin. apply Hnotin. apply in_map_iff in Hin as [t' [Hname Hin]].
  apply filter_In in Hin as [Hin _]. rewrite <- Hname. apply in_map. exact Hin.
Qed.

Lemma pd_merge_names_NoDup (left : list Country.row) (right : list food_trend) :
  NoDup (present_keys Country.Country left) ->
  NoDup (map ft_country_name right) ->
  NoDup (map (fun p => ft_country_name (snd p)) (pd_merge left right)).
Proof.
  intros Hl Hr. induction left as [|l left IH]; simpl; [constructor|].
  rewrite map_app, map_map. simpl.
  assert (Hl' : NoDup (present_keys Country.Country left)).
  { simpl in Hl. apply NoDup_app_remove_l in Hl. exact Hl. }
  apply NoDup_app.
  - apply filter_names_NoDup. exact Hr.
  - apply IH. exact Hl'.
  - intros n Hn1 Hn2.
    apply in_map_iff in Hn1 as [t [Hname Ht]].
    apply filter_In in Ht as [_ Hm]. apply key_match_spec in Hm.
    apply in_map_iff in Hn2 as [[l' t'] [Hname' Hp]]. simpl in Hname'.
    apply pd_merge_In in Hp as [Hl'in [_ Hm']].
    simpl in Hl. rewrite Hm in Hl. simpl in Hl.
    inversion Hl as [|x xs Hnotin _]; subst. apply Hnotin.
    apply present_keys_In. exists l'. split; [exact Hl'in|]. congruence.
Qed.

Lemma country_clean_keys (country : list Country.row) :
  present_keys Country.Country (country_clean country) = country_keys country.
Proof.
  unfold country_keys, country_clean, present_keys.
  induction country as [|c country IH]; simpl; [reflexivity|].
  rewrite IH. reflexivity.
Qed.

Lemma merged_df_length (country : list Country.row) (food : list Food.row) :
  List.length (merged_df country food)
  = List.length (pd_merge (country_clean country) (food_trends food)).
Proof. unfold merged_df. apply length_map. Qed.

End JoinerFacts.

(** The scenario of the specification: a mean price of 10 in 2019 and of 12
    in 2020 is a food inflation of 20 for 2020. *)
Example food_inflation_scenario :
  Forall2 feq
    (map Joiner.food_inflation
         (Joiner.food_agg
            [food_row "X" 2020 (of_Z 12); food_row "X" 2019 (of_Z 10)]))
    [NaN; of_Z 20].
Proof. vm_compute. repeat constructor. Qed.

(** C9, as stated, fails: a Country table that names a country twice gets
    two output rows for the one country with food data. *)
Lemma merged_df_duplicate_country_counterexample :
  List.length (Joiner.merged_df country_twice food_india) = 2%nat /\
  List.length country_twice = 2%nat /\
  List.length (food_countries food_india) = 1%nat /\
  List.length (food_countries_raw food_india) = 1%nat /\
  ~ (List.length (Joiner.merged_df country_twice food_india)
     <= Nat.min (List.length country_twice)
                (List.length (food_countries food_india)))%nat.
Proof.
  repeat split. vm_compute. lia.
Qed.

(** C9, amended. The joiner's output never has more rows than the Country
    table, and every output row is of a country named in both inputs; when
    the normalised names of the Country table are pairwise distinct, the
    number of output rows is at most
    min(number of Country rows, number of distinct countries with food
    data). *)
Theorem merged_df_row_count (country : list Country.row) (food : list Food.row) :
  (List.length (Joiner.merged_df country food) <= List.length country)%nat /\
  (NoDup (country_keys country) ->
   (List.length (Joiner.merged_df country food)
    <= Nat.min (List.length country) (List.length (food_countries food)))%nat) /\
  Forall
    (fun m =>
       (exists c, In c country /\
                  normalize_name (Country.Country c) = Some (Joiner.country_name m)) /\
       (exists f, In f food /\
                  normalize_name (Food.country_name f) = Some (Joiner.country_name m)))
    (Joiner.merged_df country food).
Proof.
  assert (Hlen : (List.length (Joiner.merged_df country food)
                  <= List.length country)%nat).
  { rewrite merged_df_length.
    replace (List.length country)
      with (List.length (Joiner.country_clean country))
      by (unfold Joiner.country_clean; apply length_map).
    apply pd_merge_length_left. apply food_trends_NoDup. }
  split; [exact Hlen|]. split.
  - intros Hnd. apply Nat.min_glb; [exact Hlen|].
    rewrite merged_df_length.
    rewrite <- (length_map (fun p => Joiner.ft_country_name (snd p))).
    apply NoDup_incl_length.
    + apply pd_merge_names_NoDup.
      * rewrite country_clean_keys. exact Hnd.
      * apply food_trends_NoDup.
    + intros n Hn. apply in_map_iff in Hn as [[l t] [<- Hp]]. simpl.
      apply pd_merge_In in Hp as [_ [Ht _]].
      destruct (food_trends_name _ _ Ht) as [f [Hf Hname]].
      unfold food_countries. apply nodup_In. apply present_keys_In.
      exists f. split; assumption.
  - apply Forall_forall. intros m Hm. unfold Joiner.merged_df in Hm.
    apply in_map_iff in Hm as [[l t] [<- Hp]]. simpl.
    apply pd_merge_In in Hp as [Hl [Ht Hkey]].
    unfold Joiner.country_clean in Hl. apply in_map_iff in Hl as [c [<- Hc]].
    split.
    + exists c. split; [exact Hc | exact Hkey].
    + apply (food_trends_name _ _ Ht).
Qed.

Lemma merged_df_row_count_witness :
  NoDup (country_keys country_sample) /\
  map Joiner.country_name (Joiner.merged_df country_sample food_sample)
  = ["india"; "kenya"]%string /\
  (List.length (Joiner.merged_df country_sample food_sample)
   <= Nat.min (List.length country_sample)
              (List.length (food_countries food_sample)))%nat.
Proof.
  assert (Hnd : NoDup (country_keys country_sample)).
  { vm_compute. repeat constructor; simpl; intuition discriminate. }
  split; [exact Hnd|]. split; [reflexivity|].
  destruct (merged_df_row_count country_sample food_sample) as [_ [H _]].
  apply H. exact Hnd.
Defined.

(** ** The order of the groups *)

Section SortFacts.

Variable K : Type.
Variable K_leb : K -> K -> bool.
Hypothesis K_leb_total : forall x y, K_leb x y = false -> K_leb y x = true.
Hypothesis K_leb_trans :
  forall x y z, K_leb x y = true -> K_leb y z = true -> K_leb x z = true.

Let before (x y : K) : Prop := K_leb x y = true.

Lemma insert_key_sorted (k : K) (l : list K) :
  StronglySorted before l -> StronglySorted before (insert_key K_leb k l).
Proof.
  induction 1 as [|h t Ht IH Hh]; simpl.
  - constructor; constructor.
  - destruct (K_leb k h) eqn:Hkh.
    + constructor; [constructor; assumption|].
      constructor; [exact Hkh|].
      apply Forall_forall. intros x Hx. rewrite Forall_forall in Hh.
      apply K_leb_trans with h; [exact Hkh | apply Hh; exact Hx].
    + constructor; [exact IH|].
      apply Forall_forall. intros x Hx.
      apply (Permutation_in _ (insert_key_perm K_leb k t)) in Hx.
      destruct Hx as [<-|Hx].
      * apply K_leb_total. exact Hkh.
      * rewrite Forall_forall in Hh. apply Hh. exact Hx.
Qed.

Lemma sort_keys_sorted (l : list K) : StronglySorted before (sort_keys K_leb l).
Proof.
  induction l as [|h t IH]; simpl; [constructor|].
  apply insert_key_sorted. exact IH.
Qed.

End SortFacts.

Lemma ascii_compare_refl (a : ascii) : Ascii.compare a a = Eq.
Proof. unfold Ascii.compare. apply N.compare_refl. Qed.

Lemma ascii_compare_lt_trans (a b c : ascii) :
  Ascii.compare a b = Lt -> Ascii.compare b c = Lt -> Ascii.compare a c = Lt.
Proof.
  unfold Ascii.compare. rewrite !N.compare_lt_iff. apply N.lt_trans.
Qed.

Lemma string_compare_refl (s : string) : String.compare s s = Eq.
Proof.
  induction s as [|a s IH]; simpl; [reflexivity|].
  rewrite ascii_compare_refl. exact IH.
Qed.

Lemma string_compare_lt_trans (s1 s2 s3 : string) :
  String.compare s1 s2 = Lt -> String.compare s2 s3 = Lt ->
  String.compare s1 s3 = Lt.
Proof.
  revert s2 s3. induction s1 as [|a1 s1 IH]; intros [|a2 s2] [|a3 s3];
    simpl; try discriminate; try reflexivity.
  destruct (Ascii.compare a1 a2) eqn:H12; try discriminate;
    destruct (Ascii.compare a2 a3) eqn:H23; try discriminate; intros Hs1 Hs2.
  - apply Ascii.compare_eq_iff in H12, H23. subst.
    rewrite ascii_compare_refl. apply IH with s2; assumption.
  - apply Ascii.compare_eq_iff in H12. subst. rewrite H23. reflexivity.
  - apply Ascii.compare_eq_iff in H23. subst. rewrite H12. reflexivity.
  - rewrite (ascii_compare_lt_trans _ _ _ H12 H23). reflexivity.
Qed.

Lemma string_compare_gt_lt (s1 s2 : string) :
  String.compare s1 s2 = Gt -> String.compare s2 s1 = Lt.
Proof.
  intros H. rewrite String.compare_antisym, H. reflexivity.
Qed.

Lemma key2_leb_total (x y : string * Z) :
  key2_leb x y = false -> key2_leb y x = true.
Proof.
  unfold key2_leb. destruct (String.compare (fst x) (fst y)) eqn:Hc.
  - apply String.compare_eq_iff in Hc. rewrite Hc, string_compare_refl.
    rewrite Z.leb_gt, Z.leb_le. lia.
  - discriminate.
  - rewrite (string_compare_gt_lt _ _ Hc). reflexivity.
Qed.

Lemma key2_leb_trans (x y z : string * Z) :
  key2_leb x y = true -> key2_leb y z = true -> key2_leb x z = true.
Proof.
  unfold key2_leb.
  destruct (String.compare (fst x) (fst y)) eqn:Hxy; try discriminate;
    destruct (String.compare (fst y) (fst z)) eqn:Hyz; try discriminate.
  - apply String.compare_eq_iff in Hxy, Hyz. rewrite Hxy, Hyz, string_compare_refl.
    rewrite !Z.leb_le. lia.
  - apply String.compare_eq_iff in Hxy. rewrite Hxy, Hyz. reflexivity.
  - apply String.compare_eq_iff in Hyz. rewrite <- Hyz, Hxy. reflexivity.
  - rewrite (string_compare_lt_trans _ _ _ Hxy Hyz). reflexivity.
Qed.

(** In a table whose (commodity, year) keys are sorted and distinct, the
    years of one commodity ascend. *)
Lemma years_of_commodity_ascend (comm : string)
    (rows : list Aggregation.yearly_price) :
  let key r := (Aggregation.comm_purchased r, Aggregation.year_recorded r) in
  StronglySorted (fun x y => key2_leb x y = true) (map key rows) ->
  NoDup (map key rows) ->
  StronglySorted Z.lt
    (map Aggregation.year_recorded
         (filter (fun r => String.eqb comm (Aggregation.comm_purchased r)) rows)).
Proof.
  intros key. induction rows as [|r rows IH]; simpl; intros Hs Hnd.
  - constructor.
  - apply StronglySorted_inv in Hs as [Hs Hr].
    inversion Hnd as [|k ks Hnotin Hnd']; subst.
    destruct (String.eqb comm (Aggregation.comm_purchased r)) eqn:He;
      [|apply IH; assumption].
    simpl. constructor; [apply IH; assumption|].
    apply String.eqb_eq in He.
    apply Forall_forall. intros y Hy.
    apply in_map_iff in Hy as [r' [<- Hr']].
    apply filter_In in Hr' as [Hin He']. apply String.eqb_eq in He'.
    rewrite Forall_forall in Hr.
    assert (Hle : key2_leb (key r) (key r') = true)
      by (apply Hr; apply in_map; exact Hin).
    unfold key2_leb, key in Hle. simpl in Hle.
    rewrite <- He, <- He', string_compare_refl in Hle. apply Z.leb_le in Hle.
    assert (Hne : Aggregation.year_recorded r <> Aggregation.year_recorded r').
    { intros Hy. apply Hnotin. apply in_map_iff. exists r'. split; [|exact Hin].
      unfold key. rewrite Hy. f_equal. congruence. }
    lia.
Qed.

(** ** Aggregation utilities: first-versus-last change *)

Lemma price_by_year_keys (food : list Food.row) :
  map (fun r => (Aggregation.comm_purchased r, Aggregation.year_recorded r))
      (Aggregation.price_by_year food)
  = group_keys key2_dec key2_leb Aggregation.comm_year food.
Proof.
  unfold Aggregation.price_by_year. rewrite map_map. simpl.
  rewrite <- groupby_keys. apply map_ext. intros [[c y] g]. reflexivity.
Qed.

Lemma yearly_years_ascend (food : list Food.row) (comm : string) :
  StronglySorted Z.lt (yearly_years_of food comm).
Proof.
  unfold yearly_years_of. apply years_of_commodity_ascend.
  - rewrite price_by_year_keys. unfold group_keys.
    apply sort_keys_sorted; [apply key2_leb_total | apply key2_leb_trans].
  - rewrite price_by_year_keys. apply group_keys_NoDup.
Qed.

Lemma last_app_single {A} (l : list A) (b d : A) : last (l ++ [b]) d = b.
Proof.
  induction l as [|a l IH]; simpl; [reflexivity|].
  destruct (l ++ [b])%list eqn:He; [destruct l; discriminate | exact IH].
Qed.

(** C8, as stated, fails: for yearly means 10 and 12 the per-commodity price
    change is 12 - 10 = 2, not 12/10 - 1. *)
Lemma price_change_ratio_counterexample :
  Forall2 feq (yearly_prices_of food_india "Rice") [of_Z 10; of_Z 12] /\
  Forall2 (fun cv v => fst cv = "Rice"%string /\ snd cv =f= v)
          (Aggregation.price_change food_india) [of_Z 2] /\
  claimed_first_last_delta [of_Z 10; of_Z 12] =f= Fin (1 # 5) /\
  ~ Aggregation.first_last_change [of_Z 10; of_Z 12]
    =f= claimed_first_last_delta [of_Z 10; of_Z 12].
Proof.
  split; [vm_compute; repeat constructor|].
  split; [vm_compute; repeat constructor|].
  split; [reflexivity|].
  vm_compute. intros H. discriminate H.
Qed.

(** C8, amended. The per-commodity price change is [last - first], the
    difference between the last and the first yearly mean price of the
    commodity (its yearly points being in ascending order of year), when the
    commodity has at least two yearly points, and the sentinel 0 when it has
    fewer; the price-change metric of the deep dive is
    [(last/first - 1) * 100]. *)
Theorem price_change_first_last (food : list Food.row) :
  Forall
    (fun cv =>
       yearly_prices_of food (fst cv) <> [] /\
       StronglySorted Z.lt (yearly_years_of food (fst cv)) /\
       snd cv = Aggregation.first_last_change (yearly_prices_of food (fst cv)))
    (Aggregation.price_change food) /\
  (forall (a b : float) (mid : list float),
      Aggregation.first_last_change (a :: mid ++ [b]) = (b - a)%F /\
      Aggregation.first_last_change [a] = of_Z 0 /\
      Aggregation.first_last_change [] = of_Z 0 /\
      Aggregation.deep_dive_price_change (a :: mid ++ [b])
      = ((b / a - of_Z 1) * of_Z 100)%F /\
      Aggregation.deep_dive_price_change [a] = ((a / a - of_Z 1) * of_Z 100)%F).
Proof.
  split.
  - apply Forall_forall. intros cv Hcv. unfold Aggregation.price_change in Hcv.
    apply in_map_iff in Hcv as [g [<- Hg]]. simpl.
    destruct (groupby_group _ _ _ _ _ Hg) as [Hsnd [Hne _]].
    assert (Hf : snd g
                 = filter (fun r => String.eqb (fst g) (Aggregation.comm_purchased r))
                          (Aggregation.price_by_year food)).
    { rewrite Hsnd. apply filter_ext. intros r. unfold in_group.
      destruct (string_dec (fst g) (Aggregation.comm_purchased r)) as [He|Hn].
      - symmetry. apply String.eqb_eq. exact He.
      - symmetry. apply String.eqb_neq. exact Hn. }
    split; [|split; [apply yearly_years_ascend|]];
      unfold yearly_prices_of; rewrite <- Hf; [|reflexivity].
    destruct (snd g); [contradiction | discriminate].
  - intros a b mid.
    assert (Hlast : forall d, last (a :: mid ++ [b]) d = b).
    { intros d. change (a :: mid ++ [b])%list with ((a :: mid) ++ [b])%list.
      apply last_app_single. }
    unfold Aggregation.first_last_change, Aggregation.deep_dive_price_change.
    rewrite Hlast.
    repeat split.
    simpl List.length. rewrite length_app. simpl List.length.
    replace (1 <? S (List.length mid + 1))%nat with true; [reflexivity|].
    symmetry. apply Nat.ltb_lt. lia.
Qed.

(** * Further properties of the transforms *)

(** ** Country enricher: running it twice *)

Lemma add_column_has (name : string) (cols : list string) :
  existsb (String.eqb name) (Country.add_column name cols) = true.
Proof.
  unfold Country.add_column.
  destruct (existsb (String.eqb name) cols) eqn:He; [exact He|].
  rewrite existsb_app. simpl. rewrite String.eqb_refl, orb_true_r. reflexivity.
Qed.

Lemma add_column_keeps (name other : string) (cols : list string) :
  existsb (String.eqb other) cols = true ->
  existsb (String.eqb other) (Country.add_column name cols) = true.
Proof.
  intros H. unfold Country.add_column.
  destruct (existsb (String.eqb name) cols); [exact H|].
  rewrite existsb_app, H. reflexivity.
Qed.

Lemma add_column_present (name : string) (cols : list string) :
  existsb (String.eqb name) cols = true -> Country.add_column name cols = cols.
Proof. intros H. unfold Country.add_column. rewrite H. reflexivity. Qed.

(** X1. The Country enricher is idempotent: run on its own output it
    returns that output unchanged, the [Net_Change_perc] column, now
    present, being kept and the other two derived columns recomputed to the
    same values. *)
Theorem process_country_data_idempotent (country : Country.df) :
  Country.process_country_data (Country.process_country_data country)
  = Country.process_country_data country.
Proof.
  set (once := Country.process_country_data country).
  set (cols := Country.add_column "Demographic_Status"
                 (Country.add_column "Migrants_per_100k"
                    (Country.add_column "Net_Change_perc"
                       (Country.columns country)))).
  assert (Hcols : Country.columns once = cols) by reflexivity.
  assert (Hn : Country.in_columns "Net_Change_perc" once = true).
  { unfold Country.in_columns. rewrite Hcols.
    apply add_column_keeps, add_column_keeps, add_column_has. }
  assert (Hm : existsb (String.eqb "Migrants_per_100k") cols = true)
    by apply add_column_keeps, add_column_has.
  assert (Hd : existsb (String.eqb "Demographic_Status") cols = true)
    by apply add_column_has.
  unfold Country.in_columns in Hn. rewrite Hcols in Hn.
  unfold Country.process_country_data at 1. rewrite Hcols.
  rewrite (add_column_present _ _ Hn), (add_column_present _ _ Hm),
    (add_column_present _ _ Hd).
  unfold once, Country.process_country_data. fold cols. f_equal.
  cbn [Country.rows]. rewrite map_map. apply map_ext. intros r.
  unfold Country.process_country_row at 1. unfold Country.net_change_perc.
  unfold Country.in_columns. cbn [Country.columns]. fold cols. rewrite Hn.
  reflexivity.
Qed.

(** ** Region enricher: shape and bounds *)

Lemma process_region_data_rows (str_to_float : string -> option float)
    (region : list Region.raw) (out : list Region.row) :
  Region.process_region_data str_to_float region = Ok out ->
  Forall2
    (fun r o =>
       Region.Region o = Region.raw_Region r /\
       Region.Population o = Region.raw_Population r /\
       Region.Urban_Pop o
       = (Region.Population o * Region.Urban_Pop_Perc o / of_Z 100)%F /\
       Region.Rural_Pop o = (Region.Population o - Region.Urban_Pop o)%F)
    region out.
Proof.
  unfold Region.process_region_data. intros H.
  apply mapM_Ok_Forall2 in H.
  induction H as [|r o l l' Hro _ IH]; constructor; [|exact IH].
  destruct (process_region_row_spec str_to_float r) as [o' [Ho' [Hp [_ [Hu Hr]]]]].
  rewrite Hro in Ho'. inversion Ho'; subst o'.
  repeat split; auto.
  unfold Region.process_region_row in Hro.
  destruct (Cleaner.clean_percent str_to_float (Region.raw_Urban_Pop_Perc r));
    simpl in Hro; [|discriminate].
  destruct (Cleaner.clean_percent str_to_float (Region.raw_Yearly_Change r));
    simpl in Hro; [|discriminate].
  destruct (Cleaner.clean_percent str_to_float (Region.raw_World_Share r));
    simpl in Hro; [|discriminate].
  inversion Hro. reflexivity.
Qed.

(** The Region enricher keeps the table's shape: as many rows as the
    input, in the same order, with the Region and Population columns
    untouched. *)
Theorem process_region_data_shape (str_to_float : string -> option float)
    (region : list Region.raw) (out : list Region.row) :
  Region.process_region_data str_to_float region = Ok out ->
  List.length out = List.length region /\
  map Region.Region out = map Region.raw_Region region /\
  map Region.Population out = map Region.raw_Population region.
Proof.
  intros H. apply process_region_data_rows in H.
  induction H as [|r o l l' [Hn [Hp _]] _ [IH1 [IH2 IH3]]]; simpl.
  - repeat split.
  - rewrite IH1, IH2, IH3, Hn, Hp. repeat split.
Qed.

Lemma process_region_data_shape_witness :
  exists out,
    Region.process_region_data parse_float region_sample = Ok out /\
    List.length out = List.length region_sample /\
    map Region.Region out = ["Asia"; "Oceania"]%string.
Proof.
  eexists. split; [reflexivity|].
  destruct (@process_region_data_shape parse_float region_sample _ eq_refl)
    as [Hlen [Hnames _]].
  split; [exact Hlen | exact Hnames].
Defined.

(** X2. For a region with a non-negative Population and an urban
    percentage between 0 and 100, [Urban_Pop] and [Rural_Pop] both lie
    between 0 and Population.  Nothing is clamped: a percentage above 100
    on a positive Population gives a negative [Rural_Pop]. *)
Theorem region_urban_rural_bounds (str_to_float : string -> option float)
    (region : list Region.raw) (out : list Region.row) :
  Region.process_region_data str_to_float region = Ok out ->
  Forall
    (fun o =>
       forall p u,
         Region.Population o = Fin p -> Region.Urban_Pop_Perc o = Fin u ->
         exists a b,
           Region.Urban_Pop o = Fin a /\ Region.Rural_Pop o = Fin b /\
           (0 <= p -> 0 <= u <= 100 -> 0 <= a <= p /\ 0 <= b <= p) /\
           (0 < p -> 100 < u -> b < 0))
    out.
Proof.
  intros H. apply process_region_data_rows in H.
  induction H as [|r o l l' [_ [_ [Hu Hr]]] _ IH]; constructor; [|exact IH].
  intros p u Hp Hperc. rewrite Hr, Hu, Hp, Hperc.
  exists (p * u / inject_Z 100), (p + - (p * u / inject_Z 100)).
  split; [reflexivity|]. split; [reflexivity|].
  assert (Hdiv : p * u / inject_Z 100 == p * u * (1 # 100)).
  { unfold inject_Z. field. }
  split.
  - intros Hp0 [Hu0 Hu100]. rewrite Hdiv. split; split; nra.
  - intros Hp0 Hu100. rewrite Hdiv. nra.
Qed.

Lemma region_urban_rural_bounds_witness :
  exists out,
    Region.process_region_data parse_float region_sample = Ok out /\
    Forall2 (fun o ur => Region.Urban_Pop o =f= fst ur /\ Region.Rural_Pop o =f= snd ur)
            out [(of_Z 600, of_Z 400); (NaN, NaN)] /\
    Forall
      (fun o =>
         forall p u,
           Region.Population o = Fin p -> Region.Urban_Pop_Perc o = Fin u ->
           exists a b,
             Region.Urban_Pop o = Fin a /\ Region.Rural_Pop o = Fin b /\
             (0 <= p -> 0 <= u <= 100 -> 0 <= a <= p /\ 0 <= b <= p) /\
             (0 < p -> 100 < u -> b < 0))
      out.
Proof.
  eexists. split; [reflexivity|]. split; [repeat constructor|].
  apply (@region_urban_rural_bounds parse_float region_sample). reflexivity.
Defined.

(** ** Scalar cleaner: the decoration *)

Lemma str_remove_app (c : ascii) (a b : string) :
  str_remove c (a ++ b) = (str_remove c a ++ str_remove c b)%string.
Proof.
  induction a as [|x a IH]; simpl; [reflexivity|].
  destruct (Ascii.eqb x c); simpl; rewrite IH; reflexivity.
Qed.

Lemma str_remove_absent (c : ascii) (s : string) (n : nat) :
  String.get n (str_remove c s) <> Some c.
Proof.
  revert n. induction s as [|x s IH]; intros n; simpl.
  - destruct n; discriminate.
  - destruct (Ascii.eqb x c) eqn:He; [apply IH|].
    destruct n as [|n]; simpl; [|apply IH].
    intros H. inversion H; subst. rewrite Ascii.eqb_refl in He. discriminate.
Qed.

Lemma str_remove_other (c d : ascii) (s : string) (n : nat) :
  String.get n (str_remove d (str_remove c s)) <> Some c.
Proof.
  generalize (@str_remove_absent c s). generalize (str_remove c s). clear s.
  intros s. revert n. induction s as [|x s IH]; intros n H; simpl.
  - destruct n; discriminate.
  - assert (Hs : forall m, String.get m s <> Some c)
      by (intros m; apply (H (S m))).
    destruct (Ascii.eqb x d); [apply IH; exact Hs|].
    destruct n as [|n]; simpl; [apply (H 0%nat) | apply IH; exact Hs].
Qed.

(** X3. The cleaner reads a text without its decoration: a '%' or a ','
    anywhere in the text changes nothing to the result, and the text handed
    to the number conversion contains neither character. *)
Theorem clean_percent_ignores_decoration (str_to_float : string -> option float)
    (a b : string) :
  Cleaner.clean_percent str_to_float (a ++ "%" ++ b)
  = Cleaner.clean_percent str_to_float (a ++ b) /\
  Cleaner.clean_percent str_to_float (a ++ "," ++ b)
  = Cleaner.clean_percent str_to_float (a ++ b) /\
  (forall n, String.get n (Cleaner.undecorate (a ++ b)) <> Some "%"%char) /\
  (forall n, String.get n (Cleaner.undecorate (a ++ b)) <> Some ","%char).
Proof.
  assert (Happ : forall x y, Cleaner.undecorate (x ++ y)
                             = (Cleaner.undecorate x ++ Cleaner.undecorate y)%string).
  { intros x y. unfold Cleaner.undecorate. rewrite !str_remove_app. reflexivity. }
  unfold Cleaner.clean_percent.
  rewrite (Happ a ("%" ++ b)%string), (Happ a ("," ++ b)%string).
  rewrite (Happ "%"%string b), (Happ ","%string b), (Happ a b).
  repeat split.
  - intros n. rewrite <- Happ. apply str_remove_other.
  - intros n. rewrite <- Happ. apply str_remove_absent.
Qed.

(** ** Food price filter: when it fails, and what it returns *)

Lemma mapM_Raise {A B} (f : A -> result B) (e : exn) (l : list A) :
  (forall a, In a l -> f a = Raise e \/ exists b, f a = Ok b) ->
  (exists a, In a l /\ f a = Raise e) ->
  mapM f l = Raise e.
Proof.
  induction l as [|x l IH]; intros Hall [a [Ha Hf]]; simpl.
  - destruct Ha.
  - destruct (Hall x (or_introl eq_refl)) as [Hx | [b Hx]]; rewrite Hx; simpl.
    + reflexivity.
    + destruct Ha as [<-|Ha]; [rewrite Hx in Hf; discriminate|].
      rewrite IH; [reflexivity | | exists a; auto].
      intros y Hy. apply Hall. right. exact Hy.
Qed.

Lemma coerce_row_cases (r : Food.raw) :
  (is_fin (Food.raw_year_recorded r) && is_fin (Food.raw_month_recorded r) = true /\
   exists o, Food.coerce_row r = Ok o /\
             Food.country_name o = Food.raw_country_name r /\
             Food.comm_purchased o = Food.raw_comm_purchased r /\
             Food.market_type o = Food.raw_market_type r /\
             Food.price_paid o = Food.raw_price_paid r) \/
  (is_fin (Food.raw_year_recorded r) && is_fin (Food.raw_month_recorded r) = false /\
   Food.coerce_row r = Raise IntCastingNaNError).
Proof.
  unfold Food.coerce_row.
  destruct (Food.raw_year_recorded r) as [y| | |]; simpl; auto.
  destruct (Food.raw_month_recorded r) as [m| | |]; simpl; auto.
  left. split; [reflexivity|]. eexists. repeat split.
Qed.

Lemma forallb_false_witness {A} (f : A -> bool) (l : list A) :
  forallb f l = false -> exists x, In x l /\ f x = false.
Proof.
  induction l as [|a l IH]; simpl; [discriminate|].
  destruct (f a) eqn:Ha; simpl.
  - intros H. destruct (IH H) as [x [Hx Hf]]. exists x. auto.
  - intros _. exists a. auto.
Qed.

(** X4. The food filter fails exactly when a row that it keeps (price
    present and positive) has a missing or infinite year or month, and then
    with the integer-conversion error; a row that it drops never makes it
    fail.  Otherwise it returns the kept rows, in their order, each with its
    country, commodity, market type and price as they were. *)
Theorem process_food_data_outcome (food : list Food.raw) :
  if forallb food_row_passes food
  then exists out,
         Food.process_food_data food = Ok out /\
         Forall2
           (fun r o =>
              Food.country_name o = Food.raw_country_name r /\
              Food.comm_purchased o = Food.raw_comm_purchased r /\
              Food.market_type o = Food.raw_market_type r /\
              Food.price_paid o = Food.raw_price_paid r)
           (filter Food.keep food) out
  else Food.process_food_data food = Raise IntCastingNaNError.
Proof.
  unfold Food.process_food_data.
  destruct (forallb food_row_passes food) eqn:Hall.
  - apply mapM_Forall2. intros r Hr.
    apply filter_In in Hr as [Hin Hk].
    rewrite forallb_forall in Hall. specialize (Hall r Hin).
    unfold food_row_passes in Hall. rewrite Hk in Hall. simpl in Hall.
    destruct (coerce_row_cases r) as [[_ [o Ho]] | [Hbad _]].
    + exists o. exact Ho.
    + rewrite Hbad in Hall. discriminate.
  - apply forallb_false_witness in Hall as [r [Hin Hbad]].
    unfold food_row_passes in Hbad. apply orb_false_iff in Hbad as [Hk Hfin].
    apply negb_false_iff in Hk.
    apply mapM_Raise.
    + intros a _. destruct (coerce_row_cases a) as [[_ [o [Ho _]]] | [_ Hr]].
      * right. exists o. exact Ho.
      * left. exact Hr.
    + exists r. split; [apply filter_In; auto|].
      destruct (coerce_row_cases r) as [[Hok _] | [_ Hr]]; [|exact Hr].
      rewrite Hok in Hfin. discriminate.
Qed.

Example process_food_data_outcome_examples :
  Food.process_food_data food_raw_missing_year = Raise IntCastingNaNError /\
  exists out, Food.process_food_data food_raw_sample = Ok out /\
              map Food.year_recorded out = [2019; 2020]%Z.
Proof. split; [reflexivity|]. eexists. split; reflexivity. Qed.

(** ** Undernourishment enricher: bounds and balance *)

Lemma fold_fadd_nonneg (s : list float) :
  Forall nonneg_or_na s ->
  forall a, 0 <= a ->
    exists T, fold_left fadd (filter notna s) (Fin a) = Fin T /\
              a <= T /\ (forall q, In (Fin q) s -> a + q <= T).
Proof.
  induction 1 as [|x s Hx _ IH]; intros a Ha; simpl.
  - exists a. split; [reflexivity|]. split; [lra|]. intros q [].
  - destruct x as [x0| | |]; simpl in Hx; try contradiction; simpl.
    + destruct (IH (a + x0)) as [T [HT [Hle Hin]]]; [lra|].
      exists T. split; [exact HT|]. split; [lra|].
      intros q [Hq|Hq].
      * inversion Hq; subst. exact Hle.
      * specialize (Hin q Hq). lra.
    + destruct (IH a Ha) as [T [HT [Hle Hin]]].
      exists T. split; [exact HT|]. split; [exact Hle|].
      intros q [Hq|Hq]; [discriminate | apply Hin; exact Hq].
Qed.

Lemma share_of_bounds (s : list float) (q : Q) :
  Forall nonneg_or_na s -> finite_nonzero (series_sum s) -> In (Fin q) s ->
  exists v, share_of (series_sum s) (Fin q) = Fin v /\ 0 <= v <= 100.
Proof.
  intros Hs Hfin Hin. unfold series_sum in *.
  destruct (fold_fadd_nonneg Hs (a := 0)) as [T [HT [Hle Hall]]]; [lra|].
  change (of_Z 0) with (Fin 0) in *. rewrite HT in *. simpl in Hfin.
  exists (q / T * inject_Z 100). split; [apply share_of_Fin; exact Hfin|].
  assert (Hq : 0 <= q).
  { rewrite Forall_forall in Hs. apply (Hs (Fin q) Hin). }
  specialize (Hall q Hin).
  assert (HT0 : 0 < T) by (apply Qle_lteq in Hle as [H|H]; [exact H | symmetry in H; contradiction]).
  assert (Hdiv : q / T * inject_Z 100 == (q * 100) / T).
  { unfold inject_Z. field. exact Hfin. }
  rewrite Hdiv. split.
  - apply Qle_shift_div_l; [exact HT0 | lra].
  - apply Qle_shift_div_r; [exact HT0 | lra].
Qed.

(** X5. When no Undernourished-People value is negative and their total is
    not 0, every [Global_Burden_Share] that is present lies between 0 and
    100; likewise [Population_Share] for the Population column. *)
Theorem und_shares_bounds (und : list Und.raw) :
  let res := Und.process_undernourishment_data und in
  (Forall (fun r => nonneg_or_na (Und.raw_Undernourished_People r)) und ->
   finite_nonzero (und_total_undernourished res) ->
   Forall (fun o => forall q, Und.Undernourished_People o = Fin q ->
                    exists v, Und.Global_Burden_Share o = Fin v /\ 0 <= v <= 100)
          (und_rows res)) /\
  (Forall (fun r => nonneg_or_na (Und.raw_Population r)) und ->
   finite_nonzero (und_total_pop res) ->
   Forall (fun o => forall q, Und.Population o = Fin q ->
                    exists v, Und.Population_Share o = Fin v /\ 0 <= v <= 100)
          (und_rows res)).
Proof.
  cbv zeta. unfold und_total_undernourished, und_total_pop, und_rows,
    Und.process_undernourishment_data. simpl fst. simpl snd.
  split; intros Hnn Hfin; apply Forall_forall; intros o Ho;
    apply in_map_iff in Ho as [r [<- Hr]]; simpl; intros q Hq.
  - rewrite Hq.
    apply (@share_of_bounds (map Und.raw_Undernourished_People und) q).
    + apply Forall_map. exact Hnn.
    + exact Hfin.
    + rewrite <- Hq. apply in_map. exact Hr.
  - rewrite Hq.
    apply (@share_of_bounds (map Und.raw_Population und) q).
    + apply Forall_map. exact Hnn.
    + exact Hfin.
    + rewrite <- Hq. apply in_map. exact Hr.
Qed.

Lemma und_shares_bounds_witness :
  Forall (fun o => exists v, Und.Global_Burden_Share o = Fin v /\ 0 <= v <= 100)
         (und_rows (Und.process_undernourishment_data und_complete)).
Proof.
  destruct (und_shares_bounds und_complete) as [H _].
  assert (Hnn : Forall (fun r => nonneg_or_na (Und.raw_Undernourished_People r))
                       und_complete).
  { repeat constructor; vm_compute; discriminate. }
  assert (Hfin : finite_nonzero
                   (und_total_undernourished
                      (Und.process_undernourishment_data und_complete))).
  { vm_compute. discriminate. }
  specialize (H Hnn Hfin). rewrite Forall_forall in H.
  apply Forall_forall. intros o Ho.
  destruct Ho as [<-|[<-|[]]]; eapply H; try reflexivity; simpl; auto.
Defined.

Lemma und_diff_fold (tu tp : Q) (und : list Und.raw) :
  ~ tu == 0 -> ~ tp == 0 -> Forall und_row_complete und ->
  forall a b c Tu Tp,
    fold_left fadd (filter notna (map Und.raw_Undernourished_People und)) (Fin a)
    = Fin Tu ->
    fold_left fadd (filter notna (map Und.raw_Population und)) (Fin b) = Fin Tp ->
    exists r,
      fold_left fadd
        (filter notna
           (map (fun x => (share_of (Fin tu) (Und.raw_Undernourished_People x)
                           - share_of (Fin tp) (Und.raw_Population x))%F) und))
        (Fin c) = Fin r /\
      r == c + (Tu - a) / tu * inject_Z 100 - (Tp - b) / tp * inject_Z 100.
Proof.
  intros Htu Htp. induction 1 as [|x und [u [p [Hu Hp]]] _ IH];
    intros a b c Tu Tp HU HP; simpl in *.
  - inversion HU; inversion HP; subst. exists c. split; [reflexivity|].
    field. split; assumption.
  - rewrite Hu, Hp in *. simpl in HU, HP.
    rewrite (share_of_Fin u Htu), (share_of_Fin p Htp). simpl.
    destruct (IH _ _ (c + (u / tu * inject_Z 100 + - (p / tp * inject_Z 100)))
                _ _ HU HP) as [r [Hr Hq]].
    exists r. split; [exact Hr|]. rewrite Hq. field. split; assumption.
Qed.

(** X6. In a table where every row has both counts and neither total is 0,
    the [Burden_vs_Pop_Diff] values sum to 0: the over-burdens and the
    under-burdens cancel. *)
Theorem und_burden_diff_balance (und : list Und.raw) :
  let res := Und.process_undernourishment_data und in
  Forall und_row_complete und ->
  finite_nonzero (und_total_undernourished res) ->
  finite_nonzero (und_total_pop res) ->
  series_sum (map Und.Burden_vs_Pop_Diff (und_rows res)) =f= of_Z 0.
Proof.
  cbv zeta. unfold und_total_undernourished, und_total_pop, und_rows,
    Und.process_undernourishment_data. simpl fst. simpl snd.
  intros Hall Hu Hp. rewrite map_map. unfold series_sum in *.
  destruct (fold_left fadd (filter notna (map Und.raw_Undernourished_People und))
                      (of_Z 0)) as [tu| | |] eqn:HU; simpl in Hu; try contradiction.
  destruct (fold_left fadd (filter notna (map Und.raw_Population und)) (of_Z 0))
    as [tp| | |] eqn:HP; simpl in Hp; try contradiction.
  destruct (@und_diff_fold tu tp und Hu Hp Hall 0 0 0 tu tp HU HP) as [r [Hr Hq]].
  change (map (fun x => Und.Burden_vs_Pop_Diff (Und.process_und_row (Fin tu) (Fin tp) x)) und)
    with (map (fun x => (share_of (Fin tu) (Und.raw_Undernourished_People x)
                         - share_of (Fin tp) (Und.raw_Population x))%F) und).
  change (of_Z 0) with (Fin 0). rewrite Hr. simpl. rewrite Hq.
  unfold inject_Z. field. split; assumption.
Qed.

Lemma und_burden_diff_balance_witness :
  Forall2 feq
    (map Und.Burden_vs_Pop_Diff
         (und_rows (Und.process_undernourishment_data und_complete)))
    [Fin (-125 # 3); Fin (125 # 3)] /\
  series_sum (map Und.Burden_vs_Pop_Diff
                  (und_rows (Und.process_undernourishment_data und_complete)))
  =f= of_Z 0.
Proof.
  split; [repeat constructor|].
  apply (@und_burden_diff_balance und_complete).
  - repeat constructor; eexists; eexists; split; reflexivity.
  - vm_compute. discriminate.
  - vm_compute. discriminate.
Defined.

(** ** Join keys: normalisation *)

Lemma is_space_lower (a : ascii) : is_space (lower_ascii a) = is_space a.
Proof. destruct a as [[] [] [] [] [] [] [] []]; reflexivity. Qed.

Lemma lower_ascii_idem (a : ascii) : lower_ascii (lower_ascii a) = lower_ascii a.
Proof. destruct a as [[] [] [] [] [] [] [] []]; reflexivity. Qed.

Lemma str_lower_idem (s : string) : str_lower (str_lower s) = str_lower s.
Proof.
  induction s as [|a s IH]; simpl; [reflexivity|].
  rewrite lower_ascii_idem, IH. reflexivity.
Qed.

Lemma lstrip_lower (s : string) : lstrip (str_lower s) = str_lower (lstrip s).
Proof.
  induction s as [|a s IH]; simpl; [reflexivity|].
  rewrite is_space_lower. destruct (is_space a); [exact IH | reflexivity].
Qed.

Lemma rstrip_lower (s : string) : rstrip (str_lower s) = str_lower (rstrip s).
Proof.
  induction s as [|a s IH]; simpl; [reflexivity|].
  rewrite IH, is_space_lower.
  destruct (rstrip s); simpl; [destruct (is_space a)|]; reflexivity.
Qed.

Lemma lstrip_head (s : string) :
  lstrip s = EmptyString \/
  exists a t, lstrip s = String a t /\ is_space a = false.
Proof.
  induction s as [|a s IH]; simpl; [left; reflexivity|].
  destruct (is_space a) eqn:Ha; [exact IH|].
  right. exists a, s. split; [reflexivity | exact Ha].
Qed.

Lemma rstrip_idem (s : string) : rstrip (rstrip s) = rstrip s.
Proof.
  induction s as [|a s IH]; simpl; [reflexivity|].
  destruct (rstrip s) as [|b t] eqn:Hr.
  - destruct (is_space a) eqn:Ha; simpl; [reflexivity|].
    rewrite Ha. reflexivity.
  - change (rstrip (String a (String b t)))
      with (match rstrip (String b t) with
            | EmptyString =>
                if is_space a then EmptyString else String a EmptyString
            | u => String a u
            end).
    rewrite IH. reflexivity.
Qed.

Lemma lstrip_rstrip_lstrip (s : string) :
  lstrip (rstrip (lstrip s)) = rstrip (lstrip s).
Proof.
  destruct (lstrip_head s) as [-> | [a [t [-> Ha]]]]; [reflexivity|].
  simpl. destruct (rstrip t); [rewrite Ha|]; simpl; rewrite Ha; reflexivity.
Qed.

Lemma str_strip_idem (s : string) : str_strip (str_strip s) = str_strip s.
Proof.
  unfold str_strip. rewrite lstrip_rstrip_lstrip. apply rstrip_idem.
Qed.

Lemma str_strip_lower (s : string) :
  str_strip (str_lower s) = str_lower (str_strip s).
Proof. unfold str_strip. rewrite lstrip_lower. apply rstrip_lower. Qed.

(** X7. Normalising a join key twice gives what normalising it once gives:
    the keys that [country_clean] writes are in normal form, and cleaning a
    cleaned Country table changes nothing. *)
Theorem normalize_name_idempotent (c : option string)
    (country : list Country.row) :
  normalize_name (normalize_name c) = normalize_name c /\
  Joiner.country_clean (Joiner.country_clean country)
  = Joiner.country_clean country.
Proof.
  assert (Hn : forall x, normalize_name (normalize_name x) = normalize_name x).
  { intros [s|]; simpl; [|reflexivity].
    rewrite str_strip_lower, str_lower_idem, str_strip_idem. reflexivity. }
  split; [apply Hn|].
  unfold Joiner.country_clean. rewrite map_map. apply map_ext. intros r.
  unfold Joiner.set_Country. simpl. rewrite Hn. reflexivity.
Qed.

(** ** Cross-table joiner: which countries come out *)

Lemma string_leb_total (x y : string) :
  String.leb x y = false -> String.leb y x = true.
Proof.
  intros H. destruct (String.leb_total x y) as [H1|H1]; [congruence | exact H1].
Qed.

Lemma string_leb_trans (x y z : string) :
  String.leb x y = true -> String.leb y z = true -> String.leb x z = true.
Proof.
  unfold String.leb.
  destruct (String.compare x y) eqn:Hxy; try discriminate;
    destruct (String.compare y z) eqn:Hyz; try discriminate; intros _ _.
  - apply String.compare_eq_iff in Hxy, Hyz. subst.
    rewrite string_compare_refl. reflexivity.
  - apply String.compare_eq_iff in Hxy. subst. rewrite Hyz. reflexivity.
  - apply String.compare_eq_iff in Hyz. subst. rewrite Hxy. reflexivity.
  - rewrite (string_compare_lt_trans _ _ _ Hxy Hyz). reflexivity.
Qed.

Lemma food_agg_has_name (food : list Food.row) (f : Food.row) (n : string) :
  In f food -> normalize_name (Food.country_name f) = Some n ->
  In n (map Joiner.fa_country_name (Joiner.food_agg food)).
Proof.
  intros Hf Hn. unfold Joiner.food_agg.
  rewrite grouped_pct_change_names, map_map. simpl.
  assert (Hk : In (n, Food.year_recorded f)
                  (group_keys key2_dec key2_leb Joiner.name_year food)).
  { apply group_keys_In, present_keys_In. exists f. split; [exact Hf|].
    unfold Joiner.name_year. rewrite Hn. reflexivity. }
  rewrite <- groupby_keys in Hk. apply in_map_iff in Hk as [g [Hg Hin]].
  apply in_map_iff. exists g. split; [rewrite Hg; reflexivity | exact Hin].
Qed.

Lemma food_trends_has_name (food : list Food.row) (f : Food.row) (n : string) :
  In f food -> normalize_name (Food.country_name f) = Some n ->
  In n (map Joiner.ft_country_name (Joiner.food_trends food)).
Proof.
  intros Hf Hn. rewrite food_trends_names.
  apply group_keys_In, present_keys_In.
  apply (food_agg_has_name _ _ Hf) in Hn.
  apply in_map_iff in Hn as [a [Ha Hin]].
  exists a. split; [exact Hin | rewrite Ha; reflexivity].
Qed.

(** X8. [food_trends] has exactly one row per country with food data: its
    names are the distinct normalised country names of the food table, each
    once, in ascending order. *)
Theorem food_trends_countries (food : list Food.row) :
  Permutation (map Joiner.ft_country_name (Joiner.food_trends food))
              (food_countries food) /\
  StronglySorted (fun a b => String.leb a b = true)
                 (map Joiner.ft_country_name (Joiner.food_trends food)).
Proof.
  split.
  - apply NoDup_Permutation.
    + apply food_trends_NoDup.
    + apply NoDup_nodup.
    + intros n. unfold food_countries. rewrite nodup_In, present_keys_In. split.
      * intros Hn. apply in_map_iff in Hn as [t [<- Ht]].
        apply (food_trends_name _ _ Ht).
      * intros [f [Hf Hn]]. apply (food_trends_has_name _ _ Hf Hn).
  - rewrite food_trends_names. unfold group_keys.
    apply sort_keys_sorted; [apply string_leb_total | apply string_leb_trans].
Qed.

(** X9. The join is exact on names: a Country row with a name comes out,
    under its normalised name, if and only if some food row has the same
    normalised name. *)
Theorem merged_df_membership (country : list Country.row) (food : list Food.row)
    (c : Country.row) (n : string) :
  In c country ->
  normalize_name (Country.Country c) = Some n ->
  ((exists f, In f food /\ normalize_name (Food.country_name f) = Some n) <->
   (exists m, In m (Joiner.merged_df country food) /\
              Joiner.country m = Joiner.set_Country (Some n) c /\
              Joiner.country_name m = n)).
Proof.
  intros Hc Hn. split.
  - intros [f [Hf Hfn]].
    pose proof (food_trends_has_name _ _ Hf Hfn) as Ht.
    apply in_map_iff in Ht as [t [Hname Ht]].
    exists (Joiner.with_score (Joiner.set_Country (Some n) c, t)).
    split; [|split; [reflexivity | exact Hname]].
    unfold Joiner.merged_df. apply in_map. apply pd_merge_In.
    split; [|split; [exact Ht | simpl; rewrite Hname; reflexivity]].
    unfold Joiner.country_clean. apply in_map_iff. exists c.
    rewrite Hn. split; [reflexivity | exact Hc].
  - intros [m [Hm [_ Hname]]]. unfold Joiner.merged_df in Hm.
    apply in_map_iff in Hm as [[l t] [<- Hp]]. simpl in Hname.
    apply pd_merge_In in Hp as [_ [Ht _]].
    rewrite <- Hname. apply (food_trends_name _ _ Ht).
Qed.

Lemma merged_df_membership_witness :
  (exists m, In m (Joiner.merged_df country_sample food_sample) /\
             Joiner.country m
             = Joiner.set_Country (Some "kenya"%string)
                 (country_row " KENYA" (Fin 3.4) (of_Z 94)) /\
             Joiner.country_name m = "kenya"%string) /\
  ~ (exists m, In m (Joiner.merged_df country_sample food_sample) /\
               Joiner.country m
               = Joiner.set_Country (Some "narnia"%string)
                   (country_row "Narnia" (Fin 1.5) (of_Z 12)) /\
               Joiner.country_name m = "narnia"%string).
Proof.
  split.
  - apply (@merged_df_membership country_sample food_sample
             (country_row " KENYA" (Fin 3.4) (of_Z 94)) "kenya").
    + right; right; left; reflexivity.
    + reflexivity.
    + exists (food_row "Kenya" 2020 (of_Z 7)). split; [|reflexivity].
      right; right; left; reflexivity.
  - intros H.
    apply (@merged_df_membership country_sample food_sample
             (country_row "Narnia" (Fin 1.5) (of_Z 12)) "narnia") in H.
    + destruct H as [f [Hf Hn]].
      repeat (destruct Hf as [<-|Hf]; [discriminate Hn|]). destruct Hf.
    + right; left; reflexivity.
    + reflexivity.
Defined.

(** ** Cross-table joiner: a country with a single year of prices *)

Lemma series_mean_all_na (l : list float) :
  Forall (fun x => x = NaN) l -> series_mean l = NaN.
Proof.
  intros H. unfold series_mean, series_sum, series_count.
  assert (He : filter notna l = []).
  { induction H as [|x l -> _ IH]; simpl; [reflexivity | exact IH]. }
  rewrite He. reflexivity.
Qed.

Lemma filter_map_length {A B} (f : A -> B) (p : B -> bool) (l : list A) :
  List.length (filter (fun a => p (f a)) l) = List.length (filter p (map f l)).
Proof.
  induction l as [|a l IH]; simpl; [reflexivity|].
  destruct (p (f a)); simpl; rewrite IH; reflexivity.
Qed.

Lemma NoDup_constant_length {A} (a : A) (l : list A) :
  NoDup l -> (forall x, In x l -> x = a) -> (List.length l <= 1)%nat.
Proof.
  intros Hnd Hall. destruct l as [|x [|z l]]; simpl; try lia.
  exfalso. inversion Hnd as [|? ? Hnotin _]; subst. apply Hnotin.
  rewrite (Hall x), (Hall z); simpl; auto.
Qed.

(** Among distinct (name, year) keys, a name that goes with one year only
    occurs at most once. *)
Lemma single_year_key (ks : list (string * Z)) (n : string) (y : Z) :
  NoDup ks -> (forall k, In k ks -> fst k = n -> snd k = y) ->
  (List.length (filter (fun k => String.eqb (fst k) n) ks) <= 1)%nat.
Proof.
  intros Hnd Hy. apply NoDup_constant_length with (n, y).
  - apply NoDup_filter. exact Hnd.
  - intros [n' y'] Hk. apply filter_In in Hk as [Hin He]. simpl in He.
    apply String.eqb_eq in He. subst n'.
    pose proof (Hy _ Hin eq_refl) as Hs. simpl in Hs. subst y'. reflexivity.
Qed.

Lemma lookup_prev_other (n n' : string) (p : float) (prev : list (string * float)) :
  String.eqb n' n = false ->
  Joiner.lookup_prev n ((n', p) :: prev) = Joiner.lookup_prev n prev.
Proof. intros H. simpl. rewrite H. reflexivity. Qed.

Lemma grouped_pct_change_single (n : string) (rows : list (string * Z * float)) :
  forall prev,
    Joiner.lookup_prev n prev = NaN ->
    (List.length (filter (fun x => String.eqb (fst (fst x)) n) rows) <= 1)%nat ->
    Forall (fun r => Joiner.fa_country_name r = n -> Joiner.food_inflation r = NaN)
           (Joiner.grouped_pct_change prev rows).
Proof.
  induction rows as [|[[n' y] p] rows IH]; intros prev Hprev Hlen; simpl.
  - constructor.
  - simpl in Hlen. destruct (String.eqb n' n) eqn:He.
    + apply String.eqb_eq in He. subst n'. constructor.
      * intros _. simpl. rewrite Hprev. destruct p; reflexivity.
      * apply Forall_forall. intros r Hr Hname. exfalso.
        assert (Hin : In (Joiner.fa_country_name r)
                         (map Joiner.fa_country_name
                              (Joiner.grouped_pct_change ((n, p) :: prev) rows)))
          by (apply in_map; exact Hr).
        rewrite Hname, grouped_pct_change_names in Hin.
        apply in_map_iff in Hin as [x [Hx Hin]].
        assert (Hf : In x (filter (fun x => String.eqb (fst (fst x)) n) rows))
          by (apply filter_In; split; [exact Hin | apply String.eqb_eq; exact Hx]).
        simpl in Hlen. destruct (filter _ rows); [destruct Hf | simpl in Hlen; lia].
    + constructor.
      * simpl. intros Hname. subst n'. rewrite String.eqb_refl in He. discriminate.
      * apply IH; [|exact Hlen]. rewrite lookup_prev_other; assumption.
Qed.

Lemma food_agg_single_year (food : list Food.row) (n : string) (y : Z) :
  (forall f, In f food -> normalize_name (Food.country_name f) = Some n ->
             Food.year_recorded f = y) ->
  Forall (fun r => Joiner.fa_country_name r = n -> Joiner.food_inflation r = NaN)
         (Joiner.food_agg food).
Proof.
  intros Hy. unfold Joiner.food_agg.
  apply grouped_pct_change_single; [reflexivity|].
  rewrite (filter_map_length (fun x : string * Z * float => fst x)
                             (fun k => String.eqb (fst k) n)).
  rewrite map_map.
  rewrite (map_ext _ (@fst (string * Z) (list Food.row)))
    by (intros g; reflexivity).
  rewrite (groupby_keys key2_dec key2_leb Joiner.name_year food).
  apply single_year_key with y; [apply group_keys_NoDup|].
  intros [n' y'] Hk Hn. simpl in *. subst n'.
  apply group_keys_In, present_keys_In in Hk as [f [Hf Hkey]].
  unfold Joiner.name_year in Hkey.
  destruct (normalize_name (Food.country_name f)) as [c|] eqn:Hc;
    simpl in Hkey; [|discriminate].
  inversion Hkey; subst. apply (Hy f Hf). exact Hc.
Qed.

Lemma fadd_NaN_r (x : float) : (x + NaN)%F = NaN.
Proof. destruct x; reflexivity. Qed.

(** X10. A country whose food prices all belong to one year has no
    year-over-year change: its [avg_food_inflation] is missing, and so is
    the [poverty_risk_score] of its row in the join, whatever its Fert-Rate
    and Density. *)
Theorem single_year_inflation_missing (country : list Country.row)
    (food : list Food.row) (n : string) (y : Z) :
  (forall f, In f food -> normalize_name (Food.country_name f) = Some n ->
             Food.year_recorded f = y) ->
  Forall (fun t => Joiner.ft_country_name t = n ->
                   Joiner.ft_avg_food_inflation t = NaN)
         (Joiner.food_trends food) /\
  Forall (fun m => Joiner.country_name m = n ->
                   Joiner.avg_food_inflation m = NaN /\
                   Joiner.poverty_risk_score m = NaN)
         (Joiner.merged_df country food).
Proof.
  intros Hy.
  assert (Ht : Forall (fun t => Joiner.ft_country_name t = n ->
                                Joiner.ft_avg_food_inflation t = NaN)
                      (Joiner.food_trends food)).
  { apply Forall_forall. intros t Hin Hname. unfold Joiner.food_trends in Hin.
    apply in_map_iff in Hin as [g [<- Hg]]. simpl in *.
    destruct (groupby_group _ _ _ _ _ Hg) as [_ [_ Hmem]].
    apply series_mean_all_na. apply Forall_map. apply Forall_forall.
    intros r Hr. apply Hmem in Hr as [Hr Hkey].
    pose proof (food_agg_single_year food Hy) as Hagg.
    rewrite Forall_forall in Hagg. apply (Hagg r Hr).
    inversion Hkey. congruence. }
  split; [exact Ht|].
  apply Forall_forall. intros m Hm Hname. unfold Joiner.merged_df in Hm.
  apply in_map_iff in Hm as [[l t] [<- Hp]]. simpl in *.
  apply pd_merge_In in Hp as [_ [Hin _]].
  rewrite Forall_forall in Ht. rewrite (Ht t Hin Hname).
  split; [reflexivity|]. unfold Joiner.risk_score. simpl fabs.
  change (NaN * Fin 0.5)%F with NaN. apply fadd_NaN_r.
Qed.

Lemma single_year_inflation_missing_witness :
  Forall2 feq (map Joiner.ft_avg_food_inflation (Joiner.food_trends food_sample))
          [of_Z 20; NaN; NaN] /\
  Forall (fun m => Joiner.country_name m = "kenya"%string ->
                   Joiner.avg_food_inflation m = NaN /\
                   Joiner.poverty_risk_score m = NaN)
         (Joiner.merged_df country_sample food_sample).
Proof.
  split; [vm_compute; repeat constructor|].
  apply (@single_year_inflation_missing country_sample food_sample "kenya" 2020%Z).
  intros f Hf Hn.
  repeat (destruct Hf as [<-|Hf]; [try discriminate Hn; reflexivity|]).
  destruct Hf.
Defined.

(** ** Risk score: the inflation term *)

(** X11. The score takes food inflation by its magnitude: a fall of prices
    counts as much as a rise of the same size, and between two countries of
    equal Fert-Rate and Density the one with the larger swing scores at
    least as high.  A missing Fert-Rate, Density or inflation makes the
    score missing. *)
Theorem risk_score_inflation_magnitude (fert density : float) (a b f d : Q) :
  Joiner.risk_score fert density (Fin (- a))
  =f= Joiner.risk_score fert density (Fin a) /\
  (Qabs a <= Qabs b ->
   exists x y, Joiner.risk_score (Fin f) (Fin d) (Fin a) = Fin x /\
               Joiner.risk_score (Fin f) (Fin d) (Fin b) = Fin y /\ x <= y) /\
  Joiner.risk_score NaN density (Fin a) = NaN /\
  Joiner.risk_score fert NaN (Fin a) = NaN /\
  Joiner.risk_score fert density NaN = NaN.
Proof.
  split; [|split; [|split; [|split]]].
  - destruct fert as [x| | |], density as [z| | |];
      cbv [Joiner.risk_score fabs fmul fadd fdiv of_Z Qsign inject_Z Qnum
           Z.compare fsign sign_mul inf_of_sign fneg feq];
      try exact I.
    rewrite Qabs_opp. reflexivity.
  - intros Hab. eexists. eexists. split; [reflexivity|]. split; [reflexivity|].
    apply Qplus_le_r. apply Qmult_le_compat_r; [exact Hab|].
    unfold Qle; simpl; lia.
  - reflexivity.
  - unfold Joiner.risk_score. destruct fert; reflexivity.
  - unfold Joiner.risk_score. simpl fabs.
    change (NaN * Fin 0.5)%F with NaN. apply fadd_NaN_r.
Qed.

Lemma risk_score_inflation_magnitude_witness :
  exists x y,
    Joiner.risk_score (Fin 2.2) (of_Z 464) (Fin (-3)) = Fin x /\
    Joiner.risk_score (Fin 2.2) (of_Z 464) (of_Z 20) = Fin y /\ x <= y.
Proof.
  destruct (risk_score_inflation_magnitude NaN NaN (-3) (inject_Z 20) 2.2 (inject_Z 464))
    as [_ [H _]].
  apply H. unfold Qle; simpl; lia.
Defined.

(** ** Yearly mean prices after the filter *)

Lemma fold_fadd_positive (l : list float) :
  Forall (fun x => gt_num x 0) l ->
  forall acc, gt_num acc 0 -> gt_num (fold_left fadd l acc) 0.
Proof.
  induction 1 as [|x l Hx _ IH]; intros acc Hacc; simpl; [exact Hacc|].
  apply IH. destruct acc, x; cbn [gt_num fadd] in *;
    try contradiction; try exact I. lra.
Qed.

Lemma keep_all_present (l : list float) :
  Forall (fun x => gt_num x 0) l -> filter notna l = l.
Proof.
  induction 1 as [|x l Hx _ IH]; simpl; [reflexivity|].
  rewrite IH. destruct x; simpl in Hx; try contradiction; reflexivity.
Qed.

Lemma series_mean_positive (l : list float) :
  l <> [] -> Forall (fun x => gt_num x 0) l -> gt_num (series_mean l) 0.
Proof.
  intros Hne Hall. unfold series_mean, series_sum, series_count.
  rewrite (keep_all_present Hall).
  destruct l as [|x l]; [contradiction|].
  change (fold_left fadd (x :: l) (of_Z 0))
    with (fold_left fadd l (of_Z 0 + x)%F).
  inversion Hall as [|? ? Hx Hl]; subst.
  assert (Hsum : gt_num (fold_left fadd l (of_Z 0 + x)%F) 0).
  { apply fold_fadd_positive; [exact Hl|].
    destruct x; cbn [gt_num fadd of_Z] in *; try contradiction; try exact I.
    unfold inject_Z. lra. }
  assert (Hn : 0 < inject_Z (Z.of_nat (List.length (x :: l)))).
  { unfold Qlt, inject_Z. simpl. lia. }
  remember (fold_left fadd l (of_Z 0 + x)%F) as total eqn:Ht. clear Ht.
  unfold of_Z.
  remember (inject_Z (Z.of_nat (List.length (x :: l)))) as n eqn:Hcount.
  clear Hcount.
  pose proof Hn as Hsign. apply Qsign_Lt in Hsign.
  destruct total as [t| | |]; cbn [gt_num] in Hsum; try contradiction;
    unfold fdiv; rewrite Hsign; cbn [gt_num]; [|exact I].
  apply Qlt_shift_div_l; [exact Hn | lra].
Qed.

Lemma process_food_data_prices (raw : list Food.raw) (food : list Food.row) :
  Food.process_food_data raw = Ok food ->
  Forall (fun o => gt_num (Food.price_paid o) 0) food.
Proof.
  unfold Food.process_food_data. intros H. apply mapM_Ok_Forall2 in H.
  assert (Hk : Forall (fun r => Food.keep r = true) (filter Food.keep raw)).
  { apply Forall_forall. intros r Hr. apply filter_In in Hr. tauto. }
  induction H as [|r o l l' Hro _ IH]; constructor.
  - inversion Hk; subst. rewrite (coerce_row_price _ Hro). apply keep_spec. assumption.
  - apply IH. inversion Hk; assumption.
Qed.

Lemma grouped_pct_change_prices prev rows :
  map Joiner.fa_price_paid (Joiner.grouped_pct_change prev rows) = map snd rows.
Proof.
  revert prev. induction rows as [|[[n y] p] rows IH]; intros prev; simpl.
  - reflexivity.
  - f_equal. apply IH.
Qed.

Lemma group_mean_positive {K} (K_dec : forall x y : K, {x = y} + {x <> y})
    (K_leb : K -> K -> bool) (key : Food.row -> option K)
    (food : list Food.row) (g : K * list Food.row) :
  Forall (fun o => gt_num (Food.price_paid o) 0) food ->
  In g (groupby K_dec K_leb key food) ->
  gt_num (series_mean (map Food.price_paid (snd g))) 0.
Proof.
  intros Hpos Hg. destruct (groupby_group _ _ _ _ _ Hg) as [_ [Hne Hmem]].
  apply series_mean_positive.
  - destruct (snd g); [contradiction | discriminate].
  - apply Forall_map. apply Forall_forall. intros r Hr.
    apply Hmem in Hr as [Hr _]. rewrite Forall_forall in Hpos. apply Hpos. exact Hr.
Qed.

(** X12. On the output of the food filter every yearly mean price, per
    commodity and per country, is present and greater than 0: no mean that
    the later steps divide by is missing or zero. *)
Theorem yearly_means_positive (raw : list Food.raw) (food : list Food.row) :
  Food.process_food_data raw = Ok food ->
  Forall (fun r => gt_num (Aggregation.price_paid r) 0)
         (Aggregation.price_by_year food) /\
  Forall (fun r => gt_num (Joiner.fa_price_paid r) 0) (Joiner.food_agg food).
Proof.
  intros H. apply process_food_data_prices in H. split.
  - apply Forall_forall. intros r Hr. unfold Aggregation.price_by_year in Hr.
    apply in_map_iff in Hr as [g [<- Hg]]. simpl.
    apply (group_mean_positive _ _ _ _ H Hg).
  - apply Forall_forall. intros r Hr.
    assert (Hp : In (Joiner.fa_price_paid r)
                    (map Joiner.fa_price_paid (Joiner.food_agg food)))
      by (apply in_map; exact Hr).
    unfold Joiner.food_agg in Hp. rewrite grouped_pct_change_prices, map_map in Hp.
    apply in_map_iff in Hp as [g [<- Hg]]. simpl.
    apply (group_mean_positive _ _ _ _ H Hg).
Qed.

Lemma yearly_means_positive_witness :
  exists food,
    Food.process_food_data food_raw_sample = Ok food /\
    Forall (fun r => gt_num (Aggregation.price_paid r) 0)
           (Aggregation.price_by_year food).
Proof.
  eexists. split; [reflexivity|].
  apply (@yearly_means_positive food_raw_sample). reflexivity.
Defined.

(** ** Price change of a commodity seen in one year only *)

Lemma commodity_group_rows (food : list Food.row) (g : string * list Aggregation.yearly_price) :
  In g (groupby string_dec String.leb
                (fun r => Some (Aggregation.comm_purchased r))
                (Aggregation.price_by_year food)) ->
  snd g = filter (fun r => String.eqb (fst g) (Aggregation.comm_purchased r))
                 (Aggregation.price_by_year food) /\
  snd g <> [].
Proof.
  intros Hg. destruct (groupby_group _ _ _ _ _ Hg) as [Hsnd [Hne _]].
  split; [|exact Hne]. rewrite Hsnd. apply filter_ext. intros r. unfold in_group.
  destruct (string_dec (fst g) (Aggregation.comm_purchased r)) as [He|Hn].
  - symmetry. apply String.eqb_eq. exact He.
  - symmetry. apply String.eqb_neq. exact Hn.
Qed.

Lemma single_year_points (food : list Food.row) (c : string) (y : Z) :
  (forall f, In f food -> Food.comm_purchased f = Some c ->
             Food.year_recorded f = y) ->
  (List.length
     (filter (fun r => String.eqb c (Aggregation.comm_purchased r))
             (Aggregation.price_by_year food)) <= 1)%nat.
Proof.
  intros Hy.
  rewrite (filter_ext _ (fun r => String.eqb
                                   (fst (Aggregation.comm_purchased r,
                                         Aggregation.year_recorded r)) c)).
  - rewrite (filter_map_length
               (fun r => (Aggregation.comm_purchased r, Aggregation.year_recorded r))
               (fun k => String.eqb (fst k) c)).
    rewrite price_by_year_keys.
    apply single_year_key with y; [apply group_keys_NoDup|].
    intros [c' y'] Hk Hn. simpl in *. subst c'.
    apply group_keys_In, present_keys_In in Hk as [f [Hf Hkey]].
    unfold Aggregation.comm_year in Hkey.
    destruct (Food.comm_purchased f) as [c'|] eqn:Hcomm; simpl in Hkey;
      [|discriminate].
    inversion Hkey; subst. apply (Hy f Hf). exact Hcomm.
  - intros r. simpl. apply String.eqb_sym.
Qed.

(** X13. A commodity whose prices all belong to one year has at most one
    yearly point, exactly one, of that year, when it has a price record at
    all; it then has an entry in the price-change table, and the change of
    its entry is the value that the aggregation gives to a single point,
    the sentinel 0. *)
Theorem single_year_commodity_change (food : list Food.row) (c : string) (y : Z) :
  (forall f, In f food -> Food.comm_purchased f = Some c ->
             Food.year_recorded f = y) ->
  (List.length (yearly_prices_of food c) <= 1)%nat /\
  ((exists f, In f food /\ Food.comm_purchased f = Some c) ->
   yearly_years_of food c = [y] /\
   exists cv, In cv (Aggregation.price_change food) /\ fst cv = c) /\
  Forall (fun cv =>
            fst cv = c ->
            List.length (yearly_prices_of food c) = 1%nat /\
            snd cv = Aggregation.first_last_change (yearly_prices_of food c) /\
            snd cv = of_Z 0)
         (Aggregation.price_change food).
Proof.
  intros Hy.
  pose proof (single_year_points food Hy) as Hlen.
  assert (Hlen' : (List.length (yearly_prices_of food c) <= 1)%nat).
  { unfold yearly_prices_of. rewrite length_map. exact Hlen. }
  split; [exact Hlen'|]. split.
  - intros [f [Hf Hc]].
    assert (Hk : In (c, Food.year_recorded f)
                    (map (fun r => (Aggregation.comm_purchased r,
                                    Aggregation.year_recorded r))
                         (Aggregation.price_by_year food))).
    { rewrite price_by_year_keys. apply group_keys_In, present_keys_In.
      exists f. split; [exact Hf|]. unfold Aggregation.comm_year. rewrite Hc.
      reflexivity. }
    apply in_map_iff in Hk as [r [Hr Hin]]. injection Hr as Hcomm Hyear.
    rewrite (Hy f Hf Hc) in Hyear.
    assert (Hrin : In r (filter (fun r => String.eqb c (Aggregation.comm_purchased r))
                                (Aggregation.price_by_year food))).
    { apply filter_In. split; [exact Hin|]. rewrite Hcomm. apply String.eqb_refl. }
    split.
    + unfold yearly_years_of.
      destruct (filter (fun r => String.eqb c (Aggregation.comm_purchased r))
                       (Aggregation.price_by_year food)) as [|r1 [|r2 rest]];
        [destruct Hrin | | simpl in Hlen; lia].
      destruct Hrin as [->|[]]. cbn [map]. f_equal. exact Hyear.
    + assert (Hc' : In c (map fst (groupby string_dec String.leb
                                     (fun r => Some (Aggregation.comm_purchased r))
                                     (Aggregation.price_by_year food)))).
      { rewrite groupby_keys. apply group_keys_In, present_keys_In.
        exists r. split; [exact Hin | rewrite Hcomm; reflexivity]. }
      apply in_map_iff in Hc' as [g [Hg Hgin]].
      exists (fst g, Aggregation.first_last_change (map Aggregation.price_paid (snd g))).
      split; [|exact Hg]. unfold Aggregation.price_change.
      apply in_map_iff. exists g. split; [reflexivity | exact Hgin].
  - apply Forall_forall. intros cv Hcv Hc.
    unfold Aggregation.price_change in Hcv.
    apply in_map_iff in Hcv as [g [<- Hg]]. simpl in *.
    destruct (commodity_group_rows _ _ Hg) as [Hsnd Hne]. rewrite Hc in Hsnd.
    assert (Hp : map Aggregation.price_paid (snd g) = yearly_prices_of food c).
    { unfold yearly_prices_of. rewrite Hsnd. reflexivity. }
    rewrite Hp.
    assert (Hone : List.length (yearly_prices_of food c) = 1%nat).
    { destruct (yearly_prices_of food c) as [|x [|x' l]] eqn:Hl;
        [|reflexivity | simpl in Hlen'; lia].
      rewrite <- Hp in Hl. destruct (snd g); [contradiction | discriminate]. }
    split; [exact Hone|]. split; [reflexivity|].
    unfold Aggregation.first_last_change. rewrite Hone. reflexivity.
Qed.

Lemma single_year_commodity_change_witness :
  Forall2 (fun cv e => fst cv = fst e /\ snd cv =f= snd e)
          (Aggregation.price_change food_two_commodities)
          [("Maize"%string, of_Z 0); ("Rice"%string, of_Z 2)] /\
  Forall2 feq (yearly_prices_of food_two_commodities "Maize") [of_Z 8] /\
  yearly_years_of food_two_commodities "Maize" = [2020%Z] /\
  Forall (fun cv =>
            fst cv = "Maize"%string ->
            List.length (yearly_prices_of food_two_commodities "Maize") = 1%nat /\
            snd cv = Aggregation.first_last_change
                       (yearly_prices_of food_two_commodities "Maize") /\
            snd cv = of_Z 0)
         (Aggregation.price_change food_two_commodities).
Proof.
  assert (Hy : forall f, In f food_two_commodities ->
                         Food.comm_purchased f = Some "Maize"%string ->
                         Food.year_recorded f = 2020%Z).
  { intros f Hf Hc.
    repeat (destruct Hf as [<-|Hf]; [try discriminate Hc; reflexivity|]).
    destruct Hf. }
  destruct (@single_year_commodity_change food_two_commodities "Maize" 2020%Z Hy)
    as [_ [Hex Hall]].
  split; [vm_compute; repeat constructor|].
  split; [vm_compute; repeat constructor|].
  split; [|exact Hall].
  apply Hex. eexists. split; [right; right; left; reflexivity | reflexivity].
Defined.

(** ** Life-expectancy enricher *)

(** X14. [Gender_Gap] is signed: for a row with both expectancies it is
    positive exactly when women live longer, negative exactly when men do,
    and 0 exactly when the two are equal; it is missing as soon as one of the
    two expectancies is missing.  Rows and their other columns are kept. *)
Theorem gender_gap_sign (life : list Life.raw) :
  Forall2
    (fun r o =>
       Life.Country o = Life.raw_Country r /\
       (isna (Life.raw_Females_Life_Expectancy r) = true \/
        isna (Life.raw_Males_Life_Expectancy r) = true ->
        Life.Gender_Gap o = NaN) /\
       (forall f m,
           Life.raw_Females_Life_Expectancy r = Fin f ->
           Life.raw_Males_Life_Expectancy r = Fin m ->
           (gt_num (Life.Gender_Gap o) 0 <-> m < f) /\
           (lt_num (Life.Gender_Gap o) 0 <-> f < m) /\
           (Life.Gender_Gap o =f= of_Z 0 <-> f == m)))
    life (Life.process_life_expectancy life).
Proof.
  unfold Life.process_life_expectancy. apply Forall2_map_self. intros r _.
  cbn [Life.Country Life.Gender_Gap]. split; [reflexivity|]. split.
  - intros [H|H].
    + destruct (Life.raw_Females_Life_Expectancy r); try discriminate. reflexivity.
    + destruct (Life.raw_Males_Life_Expectancy r); try discriminate.
      destruct (Life.raw_Females_Life_Expectancy r); reflexivity.
  - intros f m -> ->. cbn [fsub fneg fadd gt_num lt_num feq of_Z].
    unfold inject_Z. repeat split; intros H; lra.
Qed.

(** ** Purchasing power *)

Lemma Forall2_In_r {A B} (R : A -> B -> Prop) (l : list A) (l' : list B) (b : B) :
  Forall2 R l l' -> In b l' -> exists a, In a l /\ R a b.
Proof.
  induction 1 as [|x y l l' Hxy _ IH]; intros Hb; [destruct Hb|].
  destruct Hb as [<-|Hb].
  - exists x. split; [left; reflexivity | exact Hxy].
  - destruct (IH Hb) as [a [Ha HR]]. exists a. split; [right; exact Ha | exact HR].
Qed.

Lemma round2_notna (x : float) : notna (round2 x) = notna x.
Proof. destruct x; reflexivity. Qed.

Lemma Forall2_In_l {A B} (R : A -> B -> Prop) (l : list A) (l' : list B) (a : A) :
  Forall2 R l l' -> In a l -> exists b, In b l' /\ R a b.
Proof.
  induction 1 as [|x y l l' Hxy _ IH]; intros Ha; [destruct Ha|].
  destruct Ha as [<-|Ha].
  - exists y. split; [left; reflexivity | exact Hxy].
  - destruct (IH Ha) as [b [Hb HR]]. exists b. split; [right; exact Hb | exact HR].
Qed.

Lemma to_numeric_cell_coerce (str_to_float : string -> option float) (c : Income.cell) :
  exists v, PurchasingPower.to_numeric_cell str_to_float errors_coerce c = Ok v.
Proof.
  destruct c as [x|s]; simpl; [exists x; reflexivity|].
  unfold Cleaner.to_numeric.
  destruct s; simpl; [exists NaN; reflexivity|].
  destruct (str_to_float _); eexists; reflexivity.
Qed.

Lemma in_group_name_year (c : string) (y : Z) (f : Food.row) :
  in_group key2_dec Joiner.name_year (c, y) f
  = Joiner.key_match (normalize_name (Food.country_name f)) c
    && (Food.year_recorded f =? y)%Z.
Proof.
  unfold in_group, Joiner.name_year, Joiner.key_match.
  destruct (normalize_name (Food.country_name f)) as [c'|]; [|reflexivity].
  cbn [option_map].
  destruct (key2_dec (c, y) (c', Food.year_recorded f)) as [He|Hn].
  - inversion He; subst. rewrite String.eqb_refl, Z.eqb_refl. reflexivity.
  - symmetry. apply andb_false_iff.
    destruct (String.eqb c' c) eqn:Hc; [|left; reflexivity]. right.
    apply String.eqb_eq in Hc. apply Z.eqb_neq. intros Hy. apply Hn.
    subst. reflexivity.
Qed.

Lemma food_avg_row_source (food : list Food.row) (r : PurchasingPower.food_avg_row) :
  In r (PurchasingPower.food_avg food) ->
  PurchasingPower.fv_Year r = astype_str (PurchasingPower.fv_year_recorded r) /\
  PurchasingPower.fv_price_paid r
  = mean_price_of food (PurchasingPower.fv_country_name r)
                  (PurchasingPower.fv_year_recorded r) /\
  exists f, In f food /\
            normalize_name (Food.country_name f)
            = Some (PurchasingPower.fv_country_name r) /\
            Food.year_recorded f = PurchasingPower.fv_year_recorded r.
Proof.
  unfold PurchasingPower.food_avg. intros Hr.
  apply in_map_iff in Hr as [g [<- Hg]]. cbn [PurchasingPower.fv_Year
    PurchasingPower.fv_year_recorded PurchasingPower.fv_price_paid
    PurchasingPower.fv_country_name].
  split; [reflexivity|]. split.
  - destruct (groupby_group _ _ _ _ _ Hg) as [Hsnd _]. rewrite Hsnd.
    unfold mean_price_of. f_equal. f_equal. apply filter_ext. intros f.
    destruct (fst g) as [c y]. apply in_group_name_year.
  - assert (Hk : In (fst g) (map fst (groupby key2_dec key2_leb Joiner.name_year food)))
      by (apply in_map; exact Hg).
    rewrite groupby_keys in Hk.
    apply group_keys_In, present_keys_In in Hk as [f [Hf Hkey]].
    exists f. split; [exact Hf|].
    unfold Joiner.name_year in Hkey.
    destruct (normalize_name (Food.country_name f)) as [c|]; simpl in Hkey;
      [|discriminate].
    inversion Hkey as [Hfst]. split; reflexivity.
Qed.

Lemma food_avg_row_of (food : list Food.row) (f : Food.row) (c : string) :
  In f food -> normalize_name (Food.country_name f) = Some c ->
  exists t, In t (PurchasingPower.food_avg food) /\
            PurchasingPower.fv_country_name t = c /\
            PurchasingPower.fv_year_recorded t = Food.year_recorded f /\
            PurchasingPower.fv_Year t = astype_str (Food.year_recorded f) /\
            PurchasingPower.fv_price_paid t
            = mean_price_of food c (Food.year_recorded f).
Proof.
  intros Hf Hc.
  assert (Hk : In (c, Food.year_recorded f)
                  (map fst (groupby key2_dec key2_leb Joiner.name_year food))).
  { rewrite groupby_keys. apply group_keys_In, present_keys_In.
    exists f. split; [exact Hf|]. unfold Joiner.name_year. rewrite Hc. reflexivity. }
  apply in_map_iff in Hk as [g [Hg Hgin]].
  set (t := {| PurchasingPower.fv_country_name := fst (fst g);
               PurchasingPower.fv_year_recorded := snd (fst g);
               PurchasingPower.fv_price_paid :=
                 series_mean (map Food.price_paid (snd g));
               PurchasingPower.fv_Year := astype_str (snd (fst g)) |}).
  assert (Ht : In t (PurchasingPower.food_avg food)).
  { unfold PurchasingPower.food_avg. apply in_map_iff. exists g.
    split; [reflexivity | exact Hgin]. }
  exists t. split; [exact Ht|].
  destruct (food_avg_row_source _ _ Ht) as [_ [Hprice _]].
  rewrite Hprice. unfold t.
  cbn [PurchasingPower.fv_Year PurchasingPower.fv_year_recorded
       PurchasingPower.fv_country_name].
  rewrite Hg. cbn [fst snd]. repeat split; reflexivity.
Qed.

Lemma fdiv_NaN_r (x : float) : (x / NaN)%F = NaN.
Proof. destruct x; reflexivity. Qed.



(** ** Country deep dive: the rows of the selected country *)

Lemma str_lower_length (s : string) : String.length (str_lower s) = String.length s.
Proof. induction s as [|a s IH]; simpl; [reflexivity | rewrite IH; reflexivity]. Qed.

Lemma lstrip_length (s : string) :
  (String.length (lstrip s) <= String.length s)%nat /\
  (String.length (lstrip s) = String.length s -> lstrip s = s).
Proof.
  induction s as [|a s [IH1 IH2]]; simpl; [split; [lia | reflexivity]|].
  destruct (is_space a); simpl; split; try lia; try reflexivity.
Qed.

Lemma rstrip_length (s : string) :
  (String.length (rstrip s) <= String.length s)%nat /\
  (String.length (rstrip s) = String.length s -> rstrip s = s).
Proof.
  induction s as [|a s [IH1 IH2]]; simpl; [split; [lia | reflexivity]|].
  destruct (rstrip s) as [|b t] eqn:Hr.
  - destruct (is_space a); simpl in *; split; try lia.
    intros H. assert (Hs : String.length s = 0%nat) by lia.
    destruct s; [reflexivity | discriminate].
  - simpl in *. split; [lia|]. intros H. rewrite IH2; [reflexivity | lia].
Qed.

Lemma str_strip_same_length (s : string) :
  String.length (str_strip s) = String.length s -> str_strip s = s.
Proof.
  unfold str_strip. intros H.
  destruct (lstrip_length s) as [Hl1 Hl2].
  destruct (rstrip_length (lstrip s)) as [Hr1 Hr2].
  assert (Hl : lstrip s = s) by (apply Hl2; lia).
  rewrite Hl in *. apply Hr2. exact H.
Qed.

(** A name that lower-cases to a normalised name has no blank around it. *)
Lemma lower_of_normalised (s t : string) :
  str_lower s = str_lower (str_strip t) -> str_strip s = s.
Proof.
  intros H. apply str_strip_same_length.
  assert (Hs : str_lower (str_strip s) = str_lower s).
  { rewrite <- str_strip_lower, H, <- str_strip_lower, str_strip_idem. reflexivity. }
  rewrite <- (str_lower_length (str_strip s)), Hs. apply str_lower_length.
Qed.

(** X16. The deep dive keeps exactly the food rows whose lower-cased name
    is the selected one and whose year lies in the selected range, so none
    when the range is empty.  The name is lower-cased but not trimmed: when
    the selection is a normalised name, as the selector offers them, a food
    row whose name has a blank before or after it is left out. *)
Theorem country_food_data_rows (food : list Food.row) (t : string)
    (year_start_deep year_end_deep : Z) :
  let sel := str_lower (str_strip t) in
  let data := DeepDive.country_food_data food sel year_start_deep year_end_deep in
  (forall r,
      In r data <->
      In r food /\
      (exists s, Food.country_name r = Some s /\ str_lower s = sel) /\
      (year_start_deep <= Food.year_recorded r <= year_end_deep)%Z) /\
  Forall (fun r => exists s, Food.country_name r = Some s /\ str_strip s = s) data /\
  ((year_end_deep < year_start_deep)%Z -> data = []).
Proof.
  intros sel data.
  assert (Hmem : forall r,
             In r data <->
             In r food /\
             (exists s, Food.country_name r = Some s /\ str_lower s = sel) /\
             (year_start_deep <= Food.year_recorded r <= year_end_deep)%Z).
  { intros r. unfold data, DeepDive.country_food_data, DeepDive.selected.
    rewrite filter_In, !andb_true_iff, !Z.leb_le.
    destruct (Food.country_name r) as [s|]; simpl.
    - rewrite String.eqb_eq. split.
      + intros [Hin [[Hn H1] H2]]. split; [exact Hin|]. split; [|lia].
        exists s. split; [reflexivity | exact Hn].
      + intros [Hin [[s' [Hs Hn]] Hy]]. inversion Hs; subst s'.
        split; [exact Hin|]. split; [split; [exact Hn | lia] | lia].
    - split.
      + intros [_ [[H _] _]]. discriminate.
      + intros [_ [[s [Hs _]] _]]. discriminate. }
  split; [exact Hmem|]. split.
  - apply Forall_forall. intros r Hr. apply Hmem in Hr as [_ [[s [Hs Hn]] _]].
    exists s. split; [exact Hs|]. apply lower_of_normalised with t. exact Hn.
  - intros Hempty. destruct data as [|r rest]; [reflexivity|].
    destruct (proj1 (Hmem r) (or_introl eq_refl)) as [_ [_ Hy]]. lia.
Qed.

Example country_food_data_example :
  map Food.country_name (DeepDive.country_food_data food_sample "india" 2000 2030)
  = [Some "India"%string] /\
  In (food_row "india " 2020 (of_Z 12)) food_sample /\
  normalize_name (Some "india "%string) = Some "india"%string.
Proof. repeat split. right; left; reflexivity. Qed.

(** ** Country deep dive: the yearly trend *)

Lemma Z_leb_total (x y : Z) : (x <=? y)%Z = false -> (y <=? x)%Z = true.
Proof. rewrite Z.leb_gt, Z.leb_le. lia. Qed.

Lemma Z_leb_trans (x y z : Z) :
  (x <=? y)%Z = true -> (y <=? z)%Z = true -> (x <=? z)%Z = true.
Proof. rewrite !Z.leb_le. lia. Qed.

Lemma ascending_distinct_years (l : list Z) :
  StronglySorted (fun a b => (a <=? b)%Z = true) l -> NoDup l ->
  StronglySorted Z.lt l.
Proof.
  induction 1 as [|a l Hs IH Ha]; intros Hnd; constructor;
    inversion Hnd as [|? ? Hnotin Hnd']; subst.
  - apply IH. exact Hnd'.
  - apply Forall_forall. intros b Hb. rewrite Forall_forall in Ha.
    specialize (Ha b Hb). apply Z.leb_le in Ha.
    assert (a <> b) by (intros ->; contradiction). lia.
Qed.

Lemma avg_price_yearly_keys (data : list Food.row) :
  map DeepDive.yp_year_recorded (DeepDive.avg_price_yearly data)
  = group_keys Z.eq_dec Z.leb (fun r => Some (Food.year_recorded r)) data.
Proof.
  unfold DeepDive.avg_price_yearly. rewrite map_map. simpl.
  rewrite <- groupby_keys. reflexivity.
Qed.

(** X17. The yearly trend of the deep dive has one point per year in which
    the selected rows have a price record: the years ascend, none twice, and
    are exactly the years of the rows; the trend is empty only when no row
    is selected; and where all prices are present and positive, so is every
    yearly mean. *)
Theorem avg_price_yearly_years (data : list Food.row) :
  StronglySorted Z.lt
    (map DeepDive.yp_year_recorded (DeepDive.avg_price_yearly data)) /\
  (forall y,
      In y (map DeepDive.yp_year_recorded (DeepDive.avg_price_yearly data)) <->
      exists r, In r data /\ Food.year_recorded r = y) /\
  (DeepDive.avg_price_yearly data = [] <-> data = []) /\
  (Forall (fun r => gt_num (Food.price_paid r) 0) data ->
   Forall (fun p => gt_num (DeepDive.yp_price_paid p) 0)
          (DeepDive.avg_price_yearly data)).
Proof.
  assert (Hmem : forall y,
             In y (map DeepDive.yp_year_recorded (DeepDive.avg_price_yearly data)) <->
             exists r, In r data /\ Food.year_recorded r = y).
  { intros y. rewrite avg_price_yearly_keys, group_keys_In, present_keys_In.
    split; intros [r [Hr Hy]]; exists r; split; try exact Hr; congruence. }
  split; [|split; [exact Hmem|split]].
  - rewrite avg_price_yearly_keys. apply ascending_distinct_years.
    + unfold group_keys. apply sort_keys_sorted; [apply Z_leb_total | apply Z_leb_trans].
    + apply group_keys_NoDup.
  - split.
    + intros He. destruct data as [|r data]; [reflexivity|]. exfalso.
      assert (Hin : In (Food.year_recorded r)
                       (map DeepDive.yp_year_recorded
                            (DeepDive.avg_price_yearly (r :: data)))).
      { apply Hmem. exists r. split; [left|]; reflexivity. }
      rewrite He in Hin. exact Hin.
    + intros ->. reflexivity.
  - intros Hpos. apply Forall_forall. intros p Hp.
    unfold DeepDive.avg_price_yearly in Hp.
    apply in_map_iff in Hp as [g [<- Hg]]. simpl.
    apply (group_mean_positive _ _ _ _ Hpos Hg).
Qed.

(** ** Country deep dive: the monthly inflation rate *)

Lemma zz_leb_total (x y : Z * Z) : zz_leb x y = false -> zz_leb y x = true.
Proof.
  unfold zz_leb. rewrite (Z.compare_antisym (fst x) (fst y)).
  destruct (fst x ?= fst y)%Z eqn:Hc; simpl; try discriminate; try reflexivity.
  rewrite Z.leb_gt, Z.leb_le. lia.
Qed.

Lemma zz_leb_trans (x y z : Z * Z) :
  zz_leb x y = true -> zz_leb y z = true -> zz_leb x z = true.
Proof.
  unfold zz_leb.
  destruct (fst x ?= fst y)%Z eqn:Hxy; try discriminate;
    destruct (fst y ?= fst z)%Z eqn:Hyz; try discriminate;
    rewrite ?Z.compare_eq_iff, ?Z.compare_lt_iff in *.
  - rewrite Hxy, Hyz, Z.compare_refl, !Z.leb_le. lia.
  - intros _ _. replace (fst x ?= fst z)%Z with Lt; [reflexivity|].
    symmetry. apply Z.compare_lt_iff. lia.
  - intros _ _. replace (fst x ?= fst z)%Z with Lt; [reflexivity|].
    symmetry. apply Z.compare_lt_iff. lia.
  - intros _ _. replace (fst x ?= fst z)%Z with Lt; [reflexivity|].
    symmetry. apply Z.compare_lt_iff. lia.
Qed.

Lemma sorted_by_key {A B} (f : A -> B) (R : B -> B -> Prop) (l : list A) :
  StronglySorted (fun a b => R (f a) (f b)) l -> StronglySorted R (map f l).
Proof.
  induction 1 as [|a l _ IH Ha]; simpl; constructor; [exact IH|].
  apply Forall_map. exact Ha.
Qed.

Lemma pct_change_from_length (x : list float) :
  forall prev, List.length (pct_change_from prev x) = List.length x.
Proof. induction x as [|v x IH]; intros prev; simpl; [|rewrite IH]; reflexivity. Qed.

Lemma last_cons_default {A} (l : list A) :
  forall a d d', last (a :: l) d = last (a :: l) d'.
Proof.
  induction l as [|b l IH]; intros a d d'; [reflexivity|].
  change (last (b :: l) d = last (b :: l) d'). apply IH.
Qed.

Lemma pct_change_from_app (pre x : list float) :
  forall prev,
    pct_change_from prev (pre ++ x)
    = (pct_change_from prev pre ++ pct_change_from (last pre prev) x)%list.
Proof.
  induction pre as [|v pre IH]; intros prev; [reflexivity|].
  change (pct_change_from prev ((v :: pre) ++ x))
    with ((v / prev - of_Z 1)%F :: pct_change_from v (pre ++ x)).
  rewrite IH. simpl app. f_equal. f_equal. f_equal.
  destruct pre as [|f pre]; [reflexivity|].
  change (last (v :: f :: pre) prev) with (last (f :: pre) prev).
  apply last_cons_default.
Qed.

(** The change from a price [p] to the next price [q], in percent. *)
Lemma pct_change_step (p q : Q) :
  0 < p ->
  exists v, ((Fin q / Fin p - of_Z 1) * of_Z 100)%F = Fin v /\
            v == (q / p - 1) * 100 /\ (0 < v <-> p < q) /\ (v < 0 <-> q < p).
Proof.
  intros Hp. pose proof Hp as Hs. apply Qsign_Lt in Hs.
  exists ((q / p + - inject_Z 1) * inject_Z 100).
  split; [unfold fdiv; rewrite Hs; reflexivity|].
  assert (Hd : q / p * p == q) by (field; lra).
  set (d := q / p) in *. unfold inject_Z.
  split; [ring|]. split; split; intros H; nra.
Qed.

(** X18. The months of the deep dive come in ascending order of (year,
    month), each once; the inflation rate has one value per month, the
    first of them missing; and from a month with a positive mean price to
    the next month of the table the rate is the relative change in percent,
    positive exactly when the mean price rose and negative exactly when it
    fell. *)
Theorem monthly_inflation_rate (data : list Food.row) :
  let rows := DeepDive.avg_price_month data in
  StronglySorted (fun a b => zz_leb a b = true) (map DeepDive.year_month rows) /\
  NoDup (map DeepDive.year_month rows) /\
  List.length (DeepDive.inflation_rate rows) = List.length rows /\
  (rows <> [] -> hd (of_Z 0) (DeepDive.inflation_rate rows) = NaN) /\
  (forall pre ra rb post p q,
      rows = (pre ++ ra :: rb :: post)%list ->
      DeepDive.price_paid ra = Fin p -> 0 < p ->
      DeepDive.price_paid rb = Fin q ->
      exists v,
        nth (S (List.length pre)) (DeepDive.inflation_rate rows) NaN = Fin v /\
        v == (q / p - 1) * 100 /\ (0 < v <-> p < q) /\ (v < 0 <-> q < p)).
Proof.
  intros rows. split; [|split; [|split; [|split]]].
  - unfold rows, DeepDive.avg_price_month, DeepDive.sort_values.
    apply sorted_by_key with (R := fun a b => zz_leb a b = true).
    apply sort_keys_sorted.
    + intros x y. apply zz_leb_total.
    + intros x y z. apply zz_leb_trans.
  - unfold rows, DeepDive.avg_price_month, DeepDive.sort_values.
    eapply Permutation_NoDup.
    + apply Permutation_map. apply Permutation_sym. apply sort_keys_perm.
    + rewrite map_map. unfold DeepDive.year_month. simpl.
      rewrite (map_ext _ (@fst (Z * Z) (list Food.row)))
        by (intros [[y m] g]; reflexivity).
      rewrite groupby_keys. apply group_keys_NoDup.
  - unfold DeepDive.inflation_rate, pct_change.
    rewrite length_map, pct_change_from_length, length_map. reflexivity.
  - intros Hne. destruct rows as [|r rest]; [contradiction|].
    unfold DeepDive.inflation_rate, pct_change. simpl.
    rewrite fdiv_NaN_r. reflexivity.
  - intros pre ra rb post p q Hrows Hp Hp0 Hq.
    destruct (pct_change_step q Hp0) as [v [Hv Hrest]].
    exists v. split; [|exact Hrest].
    unfold DeepDive.inflation_rate, pct_change. rewrite Hrows.
    change NaN with ((fun c => (c * of_Z 100)%F) NaN) at 2. rewrite map_nth.
    rewrite map_app. simpl map. rewrite Hp, Hq.
    change (map DeepDive.price_paid pre ++ Fin p :: Fin q :: map DeepDive.price_paid post)%list
      with (map DeepDive.price_paid pre ++ [Fin p] ++ Fin q :: map DeepDive.price_paid post)%list.
    rewrite app_assoc, pct_change_from_app, last_app_single.
    rewrite app_nth2; rewrite pct_change_from_length, length_app, length_map;
      simpl List.length; [|lia].
    replace (S (List.length pre) - (List.length pre + 1))%nat with 0%nat by lia.
    simpl nth. exact Hv.
Qed.

Lemma monthly_inflation_rate_witness :
  Forall2 feq (DeepDive.inflation_rate (DeepDive.avg_price_month food_india))
          [NaN; of_Z 20] /\
  exists v,
    nth 1 (DeepDive.inflation_rate (DeepDive.avg_price_month food_india)) NaN = Fin v /\
    v == (12 / 10 - 1) * 100 /\ (0 < v <-> 10 < 12) /\ (v < 0 <-> 12 < 10).
Proof.
  split; [vm_compute; repeat constructor|].
  destruct (monthly_inflation_rate food_india) as [_ [_ [_ [_ H]]]].
  assert (Hp0 : 0 < 10) by reflexivity.
  exact (H [] _ _ [] _ _ eq_refl eq_refl Hp0 eq_refl).
Defined.

(** ** Undernourishment enricher: the per-capita columns *)

(** X19. For a row whose counts are numbers with
    0 <= Undernourished-People <= Population and Population > 0, the rate
    per 1000 lies between 0 and 1000 and [Undernourished_Million] times one
    million gives the count back.  A Population of 0 is not guarded against:
    with a positive count the rate is infinite. *)
Theorem und_per_capita_bounds (und : list Und.raw) :
  Forall2
    (fun r o =>
       forall u p,
         Und.raw_Undernourished_People r = Fin u -> Und.raw_Population r = Fin p ->
         (0 <= u <= p -> 0 < p ->
          exists v w,
            Und.Undernourished_per_1000 o = Fin v /\ 0 <= v <= 1000 /\
            Und.Undernourished_Million o = Fin w /\ w * 1000000 == u) /\
         (0 < u -> p == 0 -> Und.Undernourished_per_1000 o = PInf))
    und (und_rows (Und.process_undernourishment_data und)).
Proof.
  unfold und_rows, Und.process_undernourishment_data. simpl fst.
  apply Forall2_map_self. intros r _ u p Hu Hp.
  cbn [Und.Undernourished_per_1000 Und.Undernourished_Million Und.process_und_row].
  rewrite Hu, Hp. split.
  - intros [Hu0 Hup] Hp0. pose proof Hp0 as Hs. apply Qsign_Lt in Hs.
    exists (u / p * inject_Z 1000), (u / inject_Z 1000000).
    split; [unfold fdiv; rewrite Hs; reflexivity|].
    assert (Hd : u / p * p == u) by (field; lra).
    set (d := u / p) in *. unfold inject_Z.
    split; [split; nra|]. split; [reflexivity | field].
  - intros Hu0 Hp0. apply Qsign_Eq in Hp0. apply Qsign_Lt in Hu0.
    unfold fdiv. rewrite Hp0, Hu0. reflexivity.
Qed.

Lemma und_per_capita_bounds_witness :
  Forall2 feq
    (map Und.Undernourished_per_1000
         (und_rows (Und.process_undernourishment_data und_complete)))
    [of_Z 30; of_Z 180] /\
  exists v w,
    Und.Undernourished_per_1000
      (Und.process_und_row (of_Z 120) (of_Z 1500)
         {| Und.raw_Country := Some "A"%string;
            Und.raw_Undernourished_People := of_Z 30;
            Und.raw_Population := of_Z 1000 |}) = Fin v /\ 0 <= v <= 1000 /\
    Und.Undernourished_Million
      (Und.process_und_row (of_Z 120) (of_Z 1500)
         {| Und.raw_Country := Some "A"%string;
            Und.raw_Undernourished_People := of_Z 30;
            Und.raw_Population := of_Z 1000 |}) = Fin w /\ w * 1000000 == 30.
Proof.
  split; [vm_compute; repeat constructor|].
  pose proof (und_per_capita_bounds und_complete) as H.
  inversion H as [|r o l l' Hro _ Hr Ho]. subst.
  destruct (Hro 30 1000 eq_refl eq_refl) as [Hb _].
  apply Hb; [split; unfold Qle; simpl; lia | reflexivity].
Defined.

(** ** Cross-table joiner: the rows of the join and their score *)

Lemma has_food_data_trend (food : list Food.row) (c : Country.row) :
  has_food_data food c
  = existsb (fun t => Joiner.key_match (normalize_name (Country.Country c))
                                       (Joiner.ft_country_name t))
            (Joiner.food_trends food).
Proof.
  apply eq_true_iff_eq. unfold has_food_data.
  rewrite existsb_exists.
  destruct (normalize_name (Country.Country c)) as [n|] eqn:Hn.
  - rewrite existsb_exists. split.
    + intros [f [Hf He]].
      destruct (normalize_name (Food.country_name f)) as [n'|] eqn:Hf';
        [|discriminate].
      apply String.eqb_eq in He. subst n'.
      pose proof (food_trends_has_name _ _ Hf Hf') as Hin.
      apply in_map_iff in Hin as [t [Ht Hin]].
      exists t. split; [exact Hin|]. apply key_match_spec. congruence.
    + intros [t [Ht Hm]]. apply key_match_spec in Hm. inversion Hm; subst n.
      destruct (food_trends_name _ _ Ht) as [f [Hf Hname]].
      exists f. split; [exact Hf|]. rewrite Hname. apply String.eqb_refl.
  - split; [discriminate|]. intros [t [_ Hm]]. discriminate Hm.
Qed.

Lemma no_match_no_trend (right : list Joiner.food_trend) (c : option string) :
  filter (fun t => Joiner.key_match c (Joiner.ft_country_name t)) right = [] ->
  existsb (fun t => Joiner.key_match c (Joiner.ft_country_name t)) right = false.
Proof.
  induction right as [|t right IH]; simpl; [reflexivity|].
  destruct (Joiner.key_match c (Joiner.ft_country_name t)); [discriminate|].
  exact IH.
Qed.

Lemma one_match_one_trend (right : list Joiner.food_trend) (c : option string)
    (t : Joiner.food_trend) (rest : list Joiner.food_trend) :
  filter (fun t => Joiner.key_match c (Joiner.ft_country_name t)) right = t :: rest ->
  existsb (fun t => Joiner.key_match c (Joiner.ft_country_name t)) right = true /\
  In t right /\ c = Some (Joiner.ft_country_name t).
Proof.
  intros Hf.
  assert (Hin : In t (filter (fun t => Joiner.key_match c (Joiner.ft_country_name t))
                             right))
    by (rewrite Hf; left; reflexivity).
  apply filter_In in Hin as [Hin Hm]. split; [|split].
  - apply existsb_exists. exists t. split; assumption.
  - exact Hin.
  - apply key_match_spec. exact Hm.
Qed.

(** With distinct keys on the right, the inner join is the left rows that
    have a match, each once, in their order, paired with their match. *)
Lemma pd_merge_matched_rows (left : list Country.row)
    (right : list Joiner.food_trend) :
  NoDup (map Joiner.ft_country_name right) ->
  Forall2
    (fun l p =>
       fst p = l /\ In (snd p) right /\
       Country.Country l = Some (Joiner.ft_country_name (snd p)))
    (filter (fun l =>
               existsb (fun t => Joiner.key_match (Country.Country l)
                                                  (Joiner.ft_country_name t))
                       right) left)
    (Joiner.pd_merge left right).
Proof.
  intros Hnd. induction left as [|l left IH]; simpl; [constructor|].
  pose proof (@filter_key_length right (Country.Country l) Hnd) as Hlen.
  destruct (filter (fun t => Joiner.key_match (Country.Country l)
                                              (Joiner.ft_country_name t)) right)
    as [|t rest] eqn:Hf.
  - rewrite (no_match_no_trend _ _ Hf). simpl. exact IH.
  - destruct (one_match_one_trend _ _ Hf) as [He [Hin Hkey]]. rewrite He.
    destruct rest as [|t' rest]; [|simpl in Hlen; lia].
    simpl. constructor; [|exact IH]. simpl. auto.
Qed.

Lemma matched_rows_of_clean (food : list Food.row) (country : list Country.row) :
  filter (fun l =>
            existsb (fun t => Joiner.key_match (Country.Country l)
                                               (Joiner.ft_country_name t))
                    (Joiner.food_trends food))
         (Joiner.country_clean country)
  = Joiner.country_clean (filter (has_food_data food) country).
Proof.
  unfold Joiner.country_clean.
  induction country as [|c country IH]; simpl; [reflexivity|].
  rewrite has_food_data_trend.
  destruct (existsb _ (Joiner.food_trends food)); simpl; rewrite IH; reflexivity.
Qed.

Lemma Forall2_country_clean {B} (R : Country.row -> B -> Prop)
    (country : list Country.row) (out : list B) :
  Forall2 R (Joiner.country_clean country) out ->
  Forall2 (fun c b =>
             R (Joiner.set_Country (normalize_name (Country.Country c)) c) b)
          country out.
Proof.
  unfold Joiner.country_clean. revert out.
  induction country as [|c country IH]; intros out H; simpl in H;
    inversion H; subst; constructor; auto.
Qed.

Lemma Forall2_with_score (R : Country.row -> Joiner.merged -> Prop)
    (left : list Country.row) (pairs : list (Country.row * Joiner.food_trend)) :
  Forall2 (fun l p => R l (Joiner.with_score p)) left pairs ->
  Forall2 R left (map Joiner.with_score pairs).
Proof. induction 1; simpl; constructor; auto. Qed.

(** C2. The joiner's output is the inner join: one row, in order, for each
    row of the Country table whose normalised name is that of some food row,
    and no other.  The row carries the Country row under its normalised
    name, the [avg_food_inflation] of the food-trend row of that name, and
    the score
    [Fert-Rate * 0.3 + (Density / 1000) * 0.2 + abs(avg_food_inflation) * 0.5]
    of the Country row's Fert-Rate and Density and of that inflation. *)
Theorem poverty_risk_score_formula (country : list Country.row)
    (food : list Food.row) :
  Forall2
    (fun c m =>
       Joiner.country m
       = Joiner.set_Country (normalize_name (Country.Country c)) c /\
       normalize_name (Country.Country c) = Some (Joiner.country_name m) /\
       (exists t, In t (Joiner.food_trends food) /\
                  Joiner.ft_country_name t = Joiner.country_name m /\
                  Joiner.avg_food_inflation m = Joiner.ft_avg_food_inflation t) /\
       Joiner.poverty_risk_score m
       = (Country.Fert_Rate c * Fin 0.3
          + (Country.Density c / of_Z 1000) * Fin 0.2
          + fabs (Joiner.avg_food_inflation m) * Fin 0.5)%F)
    (filter (has_food_data food) country)
    (Joiner.merged_df country food).
Proof.
  unfold Joiner.merged_df.
  pose proof (@pd_merge_matched_rows (Joiner.country_clean country)
                (Joiner.food_trends food) (food_trends_NoDup food)) as H.
  rewrite matched_rows_of_clean in H.
  apply Forall2_country_clean in H.
  apply Forall2_with_score. eapply Forall2_impl; [|exact H].
  intros c [l t] [Hfst [Hin Hkey]]. simpl in Hfst, Hin, Hkey. subst l.
  split; [reflexivity|]. split; [exact Hkey|].
  split; [exists t; repeat split; exact Hin|]. reflexivity.
Qed.

Lemma poverty_risk_score_formula_witness :
  map Country.Country (filter (has_food_data food_sample) country_sample)
  = [Some "India"; Some " KENYA"]%string /\
  map Joiner.country_name (Joiner.merged_df country_sample food_sample)
  = ["india"; "kenya"]%string /\
  Forall2 feq
    (map Joiner.poverty_risk_score (Joiner.merged_df country_sample food_sample))
    [Fin 10.7528; NaN] /\
  Forall2
    (fun c m =>
       Joiner.poverty_risk_score m
       = (Country.Fert_Rate c * Fin 0.3
          + (Country.Density c / of_Z 1000) * Fin 0.2
          + fabs (Joiner.avg_food_inflation m) * Fin 0.5)%F)
    (filter (has_food_data food_sample) country_sample)
    (Joiner.merged_df country_sample food_sample).
Proof.
  split; [reflexivity|]. split; [reflexivity|].
  split; [vm_compute; repeat constructor|].
  eapply Forall2_impl; [|apply (poverty_risk_score_formula country_sample food_sample)].
  intros c m [_ [_ [_ H]]]. exact H.
Defined.
